(** * yaml_metadata: the recursive schema builder of [yaml_metadata.py]

    Shallow embedding of [construct_column], [construct_foreign_key],
    [construct_table] and [generate_metadata].

    - The object graph that [yaml.load] returns is split in two stores:
      the [TableDefinition] objects ([defs], never written by the code)
      and the [columns] dictionaries ([dicts], written by the
      [del table_def.columns[...]] of [construct_table]).  A definition
      points to its dictionary by index, so that a mapping shared
      through a YAML alias is one object, as in Python.
    - The SQLAlchemy [MetaData] is the ordered list of its tables; a
      [Table] object is identified by its name, the key of
      [MetaData.tables].
    - Python exceptions are the [Raise] outcome of a state monad: the
      state reached when the exception is raised is what the caller
      sees afterwards.
    - The recursion of [construct_table] over a possibly cyclic graph is
      given fuel; [build] supplies enough of it (see [build_enough_fuel]). *)

From Stdlib Require Import String Ascii List Bool.
From stdpp Require Import base list relations strings.

Open Scope string_scope.
Open Scope list_scope.

(** ** Data model *)

(** A value of the [columns] mapping: a type name such as ["String"]
    (a plain YAML scalar) or a nested [!Table] object. *)
Inductive cval :=
| CType (type_name : string)
| CTable (def_id : nat).

(** [TableDefinition]: [name], [columns] (a reference to a dict object)
    and the optional [primary_key] attribute tested by [hasattr]. *)
Record TableDefinition := {
  td_name : string;
  td_columns : nat;
  td_primary_key : option string
}.

(** A Python dict with string keys, in insertion order. *)
Abbreviation dict := (list (string * cval)).

(** [sqlalchemy.Column]: name, type (the name of the type engine, [None]
    for the foreign-key column created with type [None]), the
    [primary_key] flag and the [ForeignKey] target (table, column). *)
Record Column := {
  col_name : string;
  col_type : option string;
  col_primary_key : bool;
  col_foreign_key : option (string * string)
}.

(** [sqlalchemy.Table]: its name, its column collection and the columns
    of its [PrimaryKeyConstraint] ([table.primary_key.columns]). *)
Record Table := {
  tbl_name : string;
  tbl_columns : list Column;
  tbl_primary_key : list Column
}.

(** The mutable state: the dict objects and the [MetaData] tables. *)
Record st := {
  dicts : list dict;
  tables : list Table
}.

(** Exceptions that can escape from the builder.  [TypeCallError n] is
    the exception, other than [KeyError], raised when the object
    [types.__dict__[n]] is not a type class callable with no argument
    ([TypeError], [AssertionError] or [AttributeError]): it passes through
    the [except KeyError] of [construct_column].  [BadRef] is a
    reference to a missing object, which a Python object graph cannot
    have; [OutOfFuel] is the fuel of the embedding. *)
Inductive exn :=
| KeyError (msg : string)
| StopIteration
| ArgumentError (msg : string)
| RuntimeError (msg : string)
| AttributeError (attr : string)
| NoSuchTableError (name : string)
| InvalidRequestError (msg : string)
| TypeCallError (name : string)
| BadRef
| OutOfFuel.

Inductive outcome (A : Type) :=
| Ok (a : A)
| Raise (e : exn).
Arguments Ok {A} a.
Arguments Raise {A} e.

(** ** The state and exception monad *)

Definition M (A : Type) : Type := st -> outcome A * st.

Global Instance M_ret : MRet M := fun A a s => (Ok a, s).
Global Instance M_bind : MBind M := fun A B f m s =>
  match m s with
  | (Ok a, s') => f a s'
  | (Raise e, s') => (Raise e, s')
  end.

Definition raise {A} (e : exn) : M A := fun s => (Raise e, s).
Definition gets {A} (f : st -> A) : M A := fun s => (Ok (f s), s).
Definition modify (f : st -> st) : M unit := fun s => (Ok tt, f s).

(** ** Helpers on strings, dicts and tables *)

Definition dquote : string := String (ascii_of_nat 34) EmptyString.

Definition str_in (x : string) (l : list string) : bool :=
  existsb (String.eqb x) l.

(** [d[key]] on a dict. *)
Definition dict_lookup (key : string) (d : dict) : option cval :=
  match find (fun e => String.eqb e.1 key) d with
  | Some e => Some e.2
  | None => None
  end.

(** [del d[key]]. *)
Definition dict_delete (key : string) (d : dict) : dict :=
  List.filter (fun e => negb (String.eqb e.1 key)) d.

Definition table_names (ts : list Table) : list string := map tbl_name ts.

Definition find_table (n : string) (ts : list Table) : option Table :=
  find (fun t => String.eqb (tbl_name t) n) ts.

Definition update_table (n : string) (f : Table -> Table) (ts : list Table)
  : list Table :=
  map (fun t => if String.eqb (tbl_name t) n then f t else t) ts.

(** [ColumnCollection.replace]: a column with the same key is replaced
    in place, otherwise the column is appended. *)
Definition col_replace (c : Column) (cs : list Column) : list Column :=
  if existsb (fun x => String.eqb (col_name x) (col_name c)) cs
  then map (fun x => if String.eqb (col_name x) (col_name c) then c else x) cs
  else cs ++ [c].

(** [str(column)] for a column attached to a named table:
    [Column.__str__] returns ["<table>.<column>"]. *)
Definition column_str (t : Table) (c : Column) : string :=
  tbl_name t +:+ "." +:+ col_name c.

(** The names of [sqlalchemy.types] (SQLAlchemy 1.3) whose object is a
    [TypeEngine] class that builds a type when called with no argument. *)
Definition sqlalchemy_types : list string :=
  ["BigInteger"; "Boolean"; "Date"; "DateTime"; "Float"; "Integer";
   "Interval"; "LargeBinary"; "Numeric"; "PickleType"; "SmallInteger";
   "String"; "Text"; "Time"; "Unicode"; "UnicodeText"; "BIGINT";
   "BINARY"; "BLOB"; "BOOLEAN"; "CHAR"; "CLOB"; "DATE"; "DATETIME";
   "DECIMAL"; "FLOAT"; "INT"; "INTEGER"; "JSON"; "NCHAR"; "NUMERIC";
   "NVARCHAR"; "REAL"; "SMALLINT"; "TEXT"; "TIME"; "TIMESTAMP";
   "VARBINARY"; "VARCHAR"; "Enum"; "NullType"; "MatchType"; "TypeEngine";
   "UserDefinedType"; "Binary"; "_Binary"].

(** The other keys of the module dict [sqlalchemy.types.__dict__]: classes
    that need an argument ([ARRAY], [Variant]) or refuse to be
    instantiated ([TypeDecorator]), mixins that [Column] rejects
    ([Concatenable], [Indexable], [SchemaType]), functions, type
    instances and the module attributes. *)
Definition sqlalchemy_other_names : list string :=
  ["ARRAY"; "Variant"; "TypeDecorator"; "Concatenable"; "Indexable";
   "SchemaType"; "adapt_type"; "to_instance"; "NULLTYPE"; "STRINGTYPE";
   "__name__"; "__doc__"; "__package__"; "__loader__"; "__spec__"; "__file__"; "__cached__";
   "__builtins__"; "__all__"].

(** The keys of [sqlalchemy.types.__dict__]. *)
Definition types_dict_names : list string :=
  sqlalchemy_types ++ sqlalchemy_other_names.

Definition unknown_type_msg (column_type name : string) : string :=
  "Unknown type " +:+ dquote +:+ column_type +:+ dquote +:+ " in column "
  +:+ dquote +:+ name +:+ dquote.

(** ** Primitive operations of the state *)

Definition get_dict (k : nat) : M dict := fun s =>
  match dicts s !! k with
  | Some d => (Ok d, s)
  | None => (Raise BadRef, s)
  end.

Definition del_dict_key (k : nat) (key : string) : M unit :=
  modify (fun s => {| dicts := <[k := dict_delete key (default [] (dicts s !! k))]> (dicts s);
                      tables := tables s |}).

(** [Table(name, metadata, autoload=True, mustexist=True)] on a name of
    the metadata returns the existing [Table] object. *)
Definition get_table (n : string) : M Table := fun s =>
  match find_table n (tables s) with
  | Some t => (Ok t, s)
  | None => (Raise (NoSuchTableError n), s)
  end.

Definition modify_table (n : string) (f : Table -> Table) : M unit :=
  modify (fun s => {| dicts := dicts s; tables := update_table n f (tables s) |}).

(** [table.append_column(c)], i.e. [Column._set_parent]: a blank name
    is refused; the column replaces a column of the same key or is
    appended; a primary-key column enters [table.primary_key]; a
    non-primary-key column whose key is in [table.primary_key] raises,
    after the replacement has been made. *)
Definition attach_column (c : Column) (t : Table) : Table :=
  {| tbl_name := tbl_name t;
     tbl_columns := col_replace c (tbl_columns t);
     tbl_primary_key :=
       if col_primary_key c then col_replace c (tbl_primary_key t)
       else tbl_primary_key t |}.

Definition append_column (n : string) (c : Column) : M unit :=
  t ← get_table n;
  if String.eqb (col_name c) "" then raise (ArgumentError "blank column name") else
  modify_table n (attach_column c);;
  if negb (col_primary_key c)
     && existsb (fun x => String.eqb (col_name x) (col_name c)) (tbl_primary_key t)
  then raise (ArgumentError "Trying to redefine primary-key column as a non-primary-key column")
  else mret ().

(** The [Table] object created with its first column. *)
Definition initial_table (n : string) (pk : Column) : Table :=
  {| tbl_name := n; tbl_columns := [pk];
     tbl_primary_key := if col_primary_key pk then [pk] else [] |}.

(** [Table(name, metadata, primary_key)] for a name not yet in the
    metadata: the table is registered with its first column; when the
    column cannot be attached the table is removed again. *)
Definition new_table (n : string) (pk : Column) : M unit :=
  ns ← gets (fun s => table_names (tables s));
  if str_in n ns then raise (InvalidRequestError "Table is already defined") else
  if String.eqb (col_name pk) "" then raise (ArgumentError "blank column name") else
  modify (fun s => {| dicts := dicts s; tables := tables s ++ [initial_table n pk] |}).

(** [len(d)] compared with the size when the iteration started: the
    check made by every [next()] of a dict iterator. *)
Definition check_size (k : nat) (n0 : nat) : M unit :=
  d ← get_dict k;
  if Nat.eqb (length d) n0 then mret ()
  else raise (RuntimeError "dictionary changed size during iteration").

(** ** The functions of [yaml_metadata.py] *)

(** [construct_column(name, column_type)]. *)
Definition construct_column (name column_type : string) : M Column :=
  if str_in column_type sqlalchemy_types
  then mret {| col_name := name; col_type := Some column_type;
               col_primary_key := false; col_foreign_key := None |}
  else if str_in column_type sqlalchemy_other_names
  then raise (TypeCallError column_type)
  else raise (KeyError (unknown_type_msg column_type name)).

(** [construct_column] applied to a value of the mapping: a nested
    [TableDefinition] object is not a key of [types.__dict__]. *)
Definition construct_column_value (name : string) (v : cval) : M Column :=
  match v with
  | CType tn => construct_column name tn
  | CTable _ => raise (KeyError (unknown_type_msg "<TableDefinition object>" name))
  end.

(** [construct_foreign_key(one_table, many_name, key_metadata)]; the
    table objects are named by their keys in the metadata. *)
Definition construct_foreign_key (one_name many_name : string) : M unit :=
  one_table ← get_table one_name;
  match tbl_primary_key one_table with
  | [] => raise StopIteration
  | first_primary_key :: _ =>
      let column_name := tbl_name one_table +:+ "_" +:+ column_str one_table first_primary_key in
      _ ← get_table many_name;
      match find (fun c => String.eqb (col_name c) (col_name first_primary_key))
                 (tbl_columns one_table) with
      | None => raise (KeyError (col_name first_primary_key))
      | Some target =>
          append_column many_name
            {| col_name := column_name; col_type := None;
               col_primary_key := false;
               col_foreign_key := Some (tbl_name one_table, col_name target) |}
      end
  end.

(** [Column('id', Integer, primary_key=True)]. *)
Definition default_primary_key : Column :=
  {| col_name := "id"; col_type := Some "Integer";
     col_primary_key := true; col_foreign_key := None |}.

Section Builder.

(** The [TableDefinition] objects of the loaded document. *)
Variable defs : list TableDefinition.

Definition get_def (i : nat) : M TableDefinition := fun s =>
  match defs !! i with
  | Some d => (Ok d, s)
  | None => (Raise BadRef, s)
  end.

(** The primary-key step of [construct_table]. *)
Definition primary_key_of (d : TableDefinition) : M Column :=
  match td_primary_key d with
  | Some p =>
      cols ← get_dict (td_columns d);
      v ← (match dict_lookup p cols with
           | Some v => mret v
           | None => raise (KeyError p)
           end);
      primary_key ← construct_column_value p v;
      del_dict_key (td_columns d) p;;
      mret primary_key
  | None => mret default_primary_key
  end.

(** The [for name, value in table_def.columns.items()] loop of
    [construct_table]; [construct_child] is the recursive call and [n0]
    the size of the dict when the iteration started. *)
Fixpoint construct_columns (construct_child : nat -> M unit)
  (table_def : TableDefinition) (n0 : nat) (es : dict) : M unit :=
  check_size (td_columns table_def) n0;;
  match es with
  | [] => mret ()
  | (name, value) :: es' =>
      (match value with
       | CTable j =>
           construct_child j;;
           child ← get_def j;
           construct_foreign_key (td_name table_def) (td_name child)
       | CType tn =>
           c ← construct_column name tn;
           append_column (td_name table_def) c
       end);;
      construct_columns construct_child table_def n0 es'
  end.

(** [construct_table(table_def, table_metadata)]. *)
Fixpoint construct_table (fuel : nat) (i : nat) : M unit :=
  match fuel with
  | 0 => raise OutOfFuel
  | S f =>
      table_def ← get_def i;
      ns ← gets (fun s => table_names (tables s));
      if str_in (td_name table_def) ns then mret () else
      primary_key ← primary_key_of table_def;
      new_table (td_name table_def) primary_key;;
      cols ← get_dict (td_columns table_def);
      construct_columns (construct_table f) table_def (length cols) cols
  end.

(** Enough fuel: every call that does not return at once registers the
    name of one definition (see [build_enough_fuel]). *)
Definition build (i : nat) : M unit := construct_table (S (length defs)) i.

End Builder.

(** The root of the loaded YAML document. *)
Inductive ydoc :=
| YTable (def_id : nat)
| YList (items : list nat)
| YScalar (s : string).

(** [generate_metadata(file_object)] after [yaml.load]: a fresh
    [MetaData] and [construct_table] on the root. *)
Definition generate_metadata (defs : list TableDefinition) (ds : list dict)
  (doc : ydoc) : outcome (list Table) :=
  match doc with
  | YTable i =>
      match build defs i {| dicts := ds; tables := [] |} with
      | (Ok _, s) => Ok (tables s)
      | (Raise e, _) => Raise e
      end
  | _ => Raise (AttributeError "name")
  end.

(** ** The document of the module ([metadata = generate_metadata(...)]) *)

Definition people_defs : list TableDefinition :=
  [{| td_name := "people"; td_columns := 0; td_primary_key := None |};
   {| td_name := "items"; td_columns := 1; td_primary_key := None |}].

Definition people_dicts : list dict :=
  [[("firstName", CType "String"); ("lastName", CType "String");
    ("inventory", CTable 1)];
   [("description", CType "String")]].

(** ** Derived notions used in the statements *)

(** The column [construct_foreign_key] appends for a parent table [P]
    whose first primary-key column is the default [id]. *)
Definition fkcol (P : string) : Column :=
  {| col_name := P +:+ "_" +:+ (P +:+ "." +:+ "id");
     col_type := None; col_primary_key := false;
     col_foreign_key := Some (P, "id") |}.

Definition fk_name (P : string) : string := col_name (fkcol P).



Definition count_tables (n : string) (ts : list Table) : nat :=
  length (List.filter (fun t => String.eqb (tbl_name t) n) ts).

Definition has_column (n : string) (c : Column) (s : st) : Prop :=
  exists t, find_table n (tables s) = Some t /\ In c (tbl_columns t).

Definition fresh_state (ds : list dict) : st := {| dicts := ds; tables := [] |}.

(** ** What one call may change *)

(** One foreign-key append: [col_replace] of some [fkcol P]. *)
Definition fk_step (a b : list Column) : Prop :=
  exists P, b = col_replace (fkcol P) a.

(** A table object and the same object later in a build. *)
Definition tbl_rel (t t' : Table) : Prop :=
  tbl_name t' = tbl_name t /\ tbl_primary_key t' = tbl_primary_key t /\
  rtc fk_step (tbl_columns t) (tbl_columns t').

(** The tables present before keep their place and only receive
    foreign-key columns; new tables come after them. *)
Definition tables_ext (ts ts' : list Table) : Prop :=
  exists ts2 extra : list Table, ts' = ts2 ++ extra /\ Forall2 tbl_rel ts ts2.

(** [p] is the [primary_key] of a definition whose [columns] is the
    dict object [k]. *)
Definition pk_of_dict (defs : list TableDefinition) (k : nat) (p : string) : Prop :=
  exists i d, defs !! i = Some d /\ td_columns d = k /\ td_primary_key d = Some p.

(** Every dict object only loses the entries of primary keys of the
    definitions that use it. *)
Definition dicts_ext (defs : list TableDefinition) (ds ds' : list dict) : Prop :=
  length ds' = length ds /\
  forall k d, ds !! k = Some d ->
    exists K, Forall (pk_of_dict defs k) K /\
      ds' !! k = Some (List.filter (fun e => negb (str_in e.1 K)) d).

Definition frame (defs : list TableDefinition) (s s' : st) : Prop :=
  dicts_ext defs (dicts s) (dicts s') /\ tables_ext (tables s) (tables s').

(** The primary-key constraint of table [n] is empty or the default
    [id] column. *)
Definition pk_ok (n : string) (s : st) : Prop :=
  forall t, find_table n (tables s) = Some t ->
    tbl_primary_key t = [] \/ tbl_primary_key t = [default_primary_key].

(** [m] keeps [P] along every run, also when it raises. *)
Definition preserves {A} (P : st -> Prop) (m : M A) : Prop :=
  forall s, P s -> P (m s).2.

(** Partial correctness on successful runs. *)
Definition hoare {A} (P : st -> Prop) (m : M A) (Q : A -> st -> Prop) : Prop :=
  forall s a s', P s -> m s = (Ok a, s') -> Q a s'.

(** The invariant of the loop of [construct_table] for table [n],
    relative to the state [s0] at the start of the call. *)
Definition loop_frame (defs : list TableDefinition) (s0 : st) (n : string) (s : st) : Prop :=
  frame defs s0 s /\ is_Some (find_table n (tables s)) /\ pk_ok n s.

(** The number of definitions whose table is not yet in the metadata. *)
Definition unbuilt (defs : list TableDefinition) (s : st) : nat :=
  length (List.filter (fun d => negb (str_in (td_name d) (table_names (tables s)))) defs).

(** [m] never runs out of fuel from a state satisfying [P], and keeps
    [P]. *)
Definition fuel_safe {A} (P : st -> Prop) (m : M A) : Prop :=
  forall s, P s -> fst (m s) <> Raise OutOfFuel /\ P (m s).2.

(** The table names of the metadata are distinct. *)
Definition names_nodup (s : st) : Prop := NoDup (table_names (tables s)).

(** An ordinary column of an accepted type, neither blank nor [id]. *)
Definition plain_entry (e : string * cval) : Prop :=
  exists tn, e.2 = CType tn /\ str_in tn sqlalchemy_types = true /\
             e.1 <> "" /\ e.1 <> "id".





(** The table names of [s0] are the first table names of [s]. *)
Definition names_prefix (s0 s : st) : Prop :=
  exists l, table_names (tables s) = table_names (tables s0) ++ l.

(** Every table name of [s] was in [s0] or is the name of a definition. *)
Definition names_from_defs (defs : list TableDefinition) (s0 s : st) : Prop :=
  forall x, In x (table_names (tables s)) ->
    In x (table_names (tables s0)) \/ exists j d, defs !! j = Some d /\ td_name d = x.

(** The primary-key constraint [construct_table] gives the table of a
    definition: the default [id] column without [primary_key], empty with
    one (the explicit key column is not flagged). *)
Definition pk_constraint_of (d : TableDefinition) : list Column :=
  match td_primary_key d with
  | Some _ => []
  | None => [default_primary_key]
  end.

(** A definition of [defs] has the name of [t], and [t] has the
    primary-key constraint of that definition. *)
Definition pk_registered (defs : list TableDefinition) (t : Table) : Prop :=
  exists j d, defs !! j = Some d /\ td_name d = tbl_name t /\
    tbl_primary_key t = pk_constraint_of d.

Definition pk_shapes (defs : list TableDefinition) (s : st) : Prop :=
  Forall (pk_registered defs) (tables s).

(** [P] depends on the table names of the metadata only. *)
Definition names_closed (P : st -> Prop) : Prop :=
  forall s s', table_names (tables s) = table_names (tables s') -> P s -> P s'.

(** ** Concrete documents *)

(** A table with an explicit primary key:
    [!Table {name: t, primary_key: code, columns: {code: Integer, label: String}}]. *)
Definition pk_defs : list TableDefinition :=
  [{| td_name := "t"; td_columns := 0; td_primary_key := Some "code" |}].
Definition pk_dicts : list dict :=
  [[("code", CType "Integer"); ("label", CType "String")]].

(** The definition of [pk_defs] with a mapping that lacks its primary
    key, and with a primary key of an unknown type. *)
Definition nopk_dicts : list dict := [[("label", CType "String")]].
Definition badpk_dicts : list dict :=
  [[("code", CType "Bogus"); ("label", CType "String")]].

(** [!Table {name: t, columns: {x: Bogus}}]. *)
Definition bogus_defs : list TableDefinition :=
  [{| td_name := "t"; td_columns := 0; td_primary_key := None |}].
Definition bogus_dicts : list dict := [[("x", CType "Bogus")]].

(** A self-referential definition (the mapping refers to the object
    itself through a YAML alias) that also declares the columns [t_id]
    and [t_t.id]: the first is the name the foreign key of [t] to
    itself should have, the second the name the code gives it. *)
Definition selfref_defs : list TableDefinition :=
  [{| td_name := "t"; td_columns := 0; td_primary_key := None |}].
Definition selfref_dicts : list dict :=
  [[("parent", CTable 0); ("t_id", CType "String"); ("t_t.id", CType "String")]].

(** The same self-referential table with an ordinary column [label]. *)
Definition selfref_label_dicts : list dict :=
  [[("parent", CTable 0); ("label", CType "String")]].




(** Two nested definitions sharing one [columns] mapping through a YAML
    anchor; only the second one has a [primary_key]. *)
Definition shared_defs : list TableDefinition :=
  [{| td_name := "r"; td_columns := 0; td_primary_key := None |};
   {| td_name := "a"; td_columns := 1; td_primary_key := None |};
   {| td_name := "b"; td_columns := 1; td_primary_key := Some "k" |}].
Definition shared_dicts : list dict :=
  [[("first", CTable 1); ("second", CTable 2)];
   [("k", CType "Integer"); ("x", CType "String")]].

(** ** Claims *)

(** C1: the module's own document [people{firstName,
    lastName, inventory: items{description}}] gives the tables [people]
    [id, firstName, lastName] and [items] [id, description, fk], but
    the foreign-key column of [items] is named [people_people.id]
    (built from [str(column)]), not [people_id]. *)
Theorem people_document_metadata :
  generate_metadata people_defs people_dicts (YTable 0) =
  Ok [{| tbl_name := "people";
         tbl_columns := [default_primary_key;
           {| col_name := "firstName"; col_type := Some "String";
              col_primary_key := false; col_foreign_key := None |};
           {| col_name := "lastName"; col_type := Some "String";
              col_primary_key := false; col_foreign_key := None |}];
         tbl_primary_key := [default_primary_key] |};
      {| tbl_name := "items";
         tbl_columns := [default_primary_key;
           {| col_name := "description"; col_type := Some "String";
              col_primary_key := false; col_foreign_key := None |};
           {| col_name := "people_people.id"; col_type := None;
              col_primary_key := false;
              col_foreign_key := Some ("people", "id") |}];
         tbl_primary_key := [default_primary_key] |}].
Proof. vm_compute. reflexivity. Qed.

(** C2: for the parent [people] (primary key [id]) and the
    nested child [items], the child gains no column named [people_id];
    the column it gains references [people.id] and is named
    [people_people.id]. *)
Theorem people_items_foreign_key_name :
  let s := snd (build people_defs 0 (fresh_state people_dicts)) in
  ~ (exists c, has_column "items" c s /\ col_name c = "people_id") /\
  has_column "items" (fkcol "people") s /\
  fk_name "people" = "people_people.id".
Proof.
  vm_compute. split; [| split].
  - intros [c [[t [Ht Hin]] Hn]]. injection Ht as <-.
    destruct Hin as [<- | [<- | [<- | []]]]; simpl in Hn; discriminate.
  - eexists. split; [reflexivity |]. right; right; left. reflexivity.
  - reflexivity.
Qed.

(** C3, a case against the claim: [!Table {name: t, columns: {x: Bogus}}] makes
    the build fail, and the table [t] stays registered in the metadata
    the build was given. *)
Lemma bogus_column_leaves_table :
  let r := build bogus_defs 0 (fresh_state bogus_dicts) in
  fst r = Raise (KeyError (unknown_type_msg "Bogus" "x")) /\
  table_names (tables (snd r)) = ["t"].
Proof. vm_compute. split; reflexivity. Qed.

(** C4: a definition with an explicit [primary_key] builds a
    table whose primary-key constraint has no column: the column
    [construct_column] returns is not flagged [primary_key=True]. *)
Theorem explicit_primary_key_not_flagged :
  let s := snd (build pk_defs 0 (fresh_state pk_dicts)) in
  fst (build pk_defs 0 (fresh_state pk_dicts)) = Ok () /\
  exists t, find_table "t" (tables s) = Some t /\
            tbl_primary_key t = [] /\
            map col_name (tbl_columns t) = ["code"; "label"] /\
            forallb col_primary_key (tbl_columns t) = false.
Proof. vm_compute. split; [reflexivity |]. eexists. repeat split. Qed.

(** C5: [generate_metadata] passes the loaded document to
    [construct_table] as it is; a list of definitions has no [name]
    attribute. *)
Theorem generate_metadata_list_fails (defs : list TableDefinition)
  (ds : list dict) (items : list nat) :
  generate_metadata defs ds (YList items) = Raise (AttributeError "name").
Proof. reflexivity. Qed.

(** C7, a case against the claim: a self-referential definition whose
    table ends without any foreign-key column.  It declares a column
    under each of the two names the foreign key of [t] to itself can
    have ([t_id], and [t_t.id], the one the code gives it); the declared
    column of that name replaces the foreign-key column in place. *)
Lemma selfref_without_foreign_key :
  let r := build selfref_defs 0 (fresh_state selfref_dicts) in
  fst r = Ok () /\
  count_tables "t" (tables (snd r)) = 1 /\
  ~ exists c, has_column "t" c (snd r) /\ col_foreign_key c = Some ("t", "id").
Proof.
  vm_compute. split; [reflexivity | split; [reflexivity |]].
  intros [c [[t [Ht Hin]] Hfk]]. injection Ht as <-.
  destruct Hin as [<- | [<- | [<- | []]]]; discriminate.
Qed.



(** C9, a case against the claim: the definition [a] has no [primary_key], yet
    its [columns] mapping loses the entry [k] because the same mapping
    object is the [columns] of [b], whose primary key is [k]. *)
Lemma shared_columns_mutated :
  let r := build shared_defs 0 (fresh_state shared_dicts) in
  fst r = Ok () /\
  shared_defs !! 1 = Some {| td_name := "a"; td_columns := 1; td_primary_key := None |} /\
  shared_dicts !! 1 = Some [("k", CType "Integer"); ("x", CType "String")] /\
  dicts (snd r) !! 1 = Some [("x", CType "String")].
Proof. vm_compute. repeat split. Qed.

(** ** The monad: running a bind *)

Lemma run_bind {A B} (m : M A) (f : A -> M B) s :
  (m ≫= f) s = match m s with
               | (Ok a, s1) => f a s1
               | (Raise e, s1) => (Raise e, s1)
               end.
Proof. reflexivity. Qed.

Lemma bind_Ok_inv {A B} (m : M A) (f : A -> M B) s b s' :
  (m ≫= f) s = (Ok b, s') ->
  exists a s1, m s = (Ok a, s1) /\ f a s1 = (Ok b, s').
Proof.
  rewrite run_bind. destruct (m s) as [[a|e] s1]; intros H.
  - eauto.
  - discriminate.
Qed.

Lemma preserves_bind {A B} P (m : M A) (f : A -> M B) :
  preserves P m -> (forall a, preserves P (f a)) -> preserves P (m ≫= f).
Proof.
  intros Hm Hf s Hs. rewrite run_bind.
  specialize (Hm s Hs). destruct (m s) as [[a|e] s1]; simpl in *; auto.
  apply Hf; exact Hm.
Qed.

Lemma preserves_same {A} P (m : M A) :
  (forall s, (m s).2 = s) -> preserves P m.
Proof. intros Hm s Hs. rewrite Hm. exact Hs. Qed.

Lemma hoare_bind {A B} P (m : M A) Q (f : A -> M B) R :
  hoare P m Q -> (forall a, hoare (Q a) (f a) R) -> hoare P (m ≫= f) R.
Proof.
  intros Hm Hf s b s' Hs Hrun. apply bind_Ok_inv in Hrun as (a & s1 & H1 & H2).
  eapply Hf; [| exact H2]. eapply Hm; eauto.
Qed.

Lemma hoare_consequence {A} (P P' : st -> Prop) (m : M A) (Q Q' : A -> st -> Prop) :
  (forall s, P' s -> P s) -> hoare P m Q -> (forall a s, Q a s -> Q' a s) ->
  hoare P' m Q'.
Proof. intros HP Hm HQ s a s' Hs Hr. apply HQ. eapply Hm; eauto. Qed.

Lemma get_dict_same k s : (get_dict k s).2 = s.
Proof. unfold get_dict. destruct (dicts s !! k); reflexivity. Qed.

Lemma get_table_same n s : (get_table n s).2 = s.
Proof. unfold get_table. destruct (find_table n (tables s)); reflexivity. Qed.

Lemma get_def_same defs i s : (get_def defs i s).2 = s.
Proof. unfold get_def. destruct (defs !! i); reflexivity. Qed.

Lemma check_size_same k n0 s : (check_size k n0 s).2 = s.
Proof.
  unfold check_size. rewrite run_bind. unfold get_dict.
  destruct (dicts s !! k); [| reflexivity]. simpl.
  destruct (Nat.eqb _ _); reflexivity.
Qed.

Lemma construct_column_same name tn s : (construct_column name tn s).2 = s.
Proof. unfold construct_column. repeat destruct (str_in _ _); reflexivity. Qed.

Lemma construct_column_value_same name v s : (construct_column_value name v s).2 = s.
Proof. destruct v; [apply construct_column_same | reflexivity]. Qed.

(** ** The frame of a build: reflexive and transitive *)

Lemma str_in_app x K1 K2 : str_in x (K1 ++ K2) = str_in x K1 || str_in x K2.
Proof. unfold str_in. apply existsb_app. Qed.

Lemma filter_keys_nil (d : dict) :
  List.filter (fun e => negb (str_in e.1 [])) d = d.
Proof. induction d as [|e d IH]; [reflexivity |]. simpl in *. rewrite IH. reflexivity. Qed.

Lemma filter_keys_app (K1 K2 : list string) (d : dict) :
  List.filter (fun e => negb (str_in e.1 K2))
    (List.filter (fun e => negb (str_in e.1 K1)) d) =
  List.filter (fun e => negb (str_in e.1 (K1 ++ K2))) d.
Proof.
  induction d as [|e d IH]; simpl; [reflexivity |].
  rewrite str_in_app. destruct (str_in e.1 K1); simpl; [exact IH |].
  destruct (str_in e.1 K2); simpl; [exact IH | rewrite IH; reflexivity].
Qed.

Lemma dicts_ext_refl defs ds : dicts_ext defs ds ds.
Proof.
  split; [reflexivity |]. intros k d Hk. exists []. split; [constructor |].
  rewrite filter_keys_nil. exact Hk.
Qed.

Lemma dicts_ext_trans defs ds1 ds2 ds3 :
  dicts_ext defs ds1 ds2 -> dicts_ext defs ds2 ds3 -> dicts_ext defs ds1 ds3.
Proof.
  intros [L12 H12] [L23 H23]. split; [congruence |].
  intros k d Hk. destruct (H12 k d Hk) as (K1 & HK1 & Hk2).
  destruct (H23 k _ Hk2) as (K2 & HK2 & Hk3).
  exists (K1 ++ K2). split; [apply Forall_app; auto |].
  rewrite Hk3, filter_keys_app. reflexivity.
Qed.

Lemma tbl_rel_refl t : tbl_rel t t.
Proof. repeat split. apply rtc_refl. Qed.

Lemma tbl_rel_trans t1 t2 t3 : tbl_rel t1 t2 -> tbl_rel t2 t3 -> tbl_rel t1 t3.
Proof.
  intros (N12 & P12 & C12) (N23 & P23 & C23).
  split; [congruence | split; [congruence |]]. etrans; eauto.
Qed.

Lemma Forall2_tbl_rel_refl ts : Forall2 tbl_rel ts ts.
Proof. induction ts; constructor; auto using tbl_rel_refl. Qed.

Lemma Forall2_tbl_rel_trans ts1 ts2 ts3 :
  Forall2 tbl_rel ts1 ts2 -> Forall2 tbl_rel ts2 ts3 -> Forall2 tbl_rel ts1 ts3.
Proof.
  intros H12. revert ts3. induction H12 as [|t1 t2 l1 l2 R12 _ IH]; intros ts3 H23;
    inversion H23; subst; constructor; eauto using tbl_rel_trans.
Qed.

Lemma tables_ext_refl ts : tables_ext ts ts.
Proof. exists ts, []. rewrite app_nil_r. split; [reflexivity | apply Forall2_tbl_rel_refl]. Qed.

Lemma tables_ext_trans ts1 ts2 ts3 :
  tables_ext ts1 ts2 -> tables_ext ts2 ts3 -> tables_ext ts1 ts3.
Proof.
  intros (a & ea & -> & Ha) (b & eb & -> & Hb).
  apply Forall2_app_inv_l in Hb as (b1 & b2 & Hb1 & Hb2 & ->).
  exists b1, (b2 ++ eb). split; [by rewrite app_assoc |].
  eapply Forall2_tbl_rel_trans; eauto.
Qed.

Lemma frame_refl defs s : frame defs s s.
Proof. split; [apply dicts_ext_refl | apply tables_ext_refl]. Qed.

Lemma frame_trans defs s1 s2 s3 :
  frame defs s1 s2 -> frame defs s2 s3 -> frame defs s1 s3.
Proof.
  intros [D12 T12] [D23 T23].
  split; [eapply dicts_ext_trans | eapply tables_ext_trans]; eauto.
Qed.

Lemma frame_same defs s s' : s' = s -> frame defs s s'.
Proof. intros ->. apply frame_refl. Qed.

(** ** Each operation stays in the frame *)

Lemma append_column_state n c s :
  (append_column n c s).2 = s \/
  (append_column n c s).2 =
    {| dicts := dicts s; tables := update_table n (attach_column c) (tables s) |}.
Proof.
  unfold append_column. rewrite run_bind. unfold get_table.
  destruct (find_table n (tables s)) as [t|]; [| left; reflexivity]. simpl.
  destruct (String.eqb _ _); [left; reflexivity |].
  right. rewrite run_bind. simpl.
  destruct (negb _ && _); reflexivity.
Qed.

Lemma attach_fk_rel P t : tbl_rel t (attach_column (fkcol P) t).
Proof.
  split; [reflexivity | split; [reflexivity |]].
  apply rtc_once. exists P. reflexivity.
Qed.

Lemma update_table_fk_frame defs s n P :
  frame defs s {| dicts := dicts s;
                  tables := update_table n (attach_column (fkcol P)) (tables s) |}.
Proof.
  split; [apply dicts_ext_refl |].
  exists (update_table n (attach_column (fkcol P)) (tables s)), [].
  rewrite app_nil_r. split; [reflexivity |]. simpl.
  unfold update_table. induction (tables s) as [|t ts IH]; simpl; constructor; auto.
  destruct (String.eqb _ _); [apply attach_fk_rel | apply tbl_rel_refl].
Qed.

Lemma append_column_fk_frame defs n P s :
  frame defs s (append_column n (fkcol P) s).2.
Proof.
  destruct (append_column_state n (fkcol P) s) as [-> | ->].
  - apply frame_refl.
  - apply update_table_fk_frame.
Qed.

Lemma find_table_name n ts t : find_table n ts = Some t -> tbl_name t = n.
Proof.
  unfold find_table. intros H. apply find_some in H as [_ H].
  apply String.eqb_eq in H. exact H.
Qed.

(** With a primary-key constraint made of the default [id], the
    column appended by [construct_foreign_key] is [fkcol one]. *)
Lemma construct_foreign_key_cases one many s :
  pk_ok one s ->
  (exists e, construct_foreign_key one many s = (Raise e, s)) \/
  construct_foreign_key one many s = append_column many (fkcol one) s.
Proof.
  intros Hpk. unfold construct_foreign_key, get_table. rewrite run_bind.
  destruct (find_table one (tables s)) as [t|] eqn:Ht; [| left; eexists; reflexivity].
  pose proof (find_table_name _ _ _ Ht) as Hname.
  destruct (Hpk t Ht) as [Hp | Hp]; rewrite Hp; [left; eexists; reflexivity |].
  rewrite run_bind.
  destruct (find_table many (tables s)); [| left; eexists; reflexivity].
  destruct (find _ _) as [target|] eqn:Hf; [| left; eexists; reflexivity].
  apply find_some in Hf as [_ Hn]. apply String.eqb_eq in Hn.
  right. unfold fkcol, column_str. simpl in *. rewrite Hname, Hn. reflexivity.
Qed.

Lemma construct_foreign_key_frame defs one many s :
  pk_ok one s -> frame defs s (construct_foreign_key one many s).2.
Proof.
  intros Hpk. destruct (construct_foreign_key_cases one many s Hpk) as [[e ->] | ->].
  - apply frame_refl.
  - apply append_column_fk_frame.
Qed.

Lemma dict_delete_filter p (cols : dict) :
  dict_delete p cols = List.filter (fun e => negb (str_in e.1 [p])) cols.
Proof.
  unfold dict_delete. apply filter_ext. intros e. simpl.
  rewrite orb_false_r. reflexivity.
Qed.

Lemma del_dict_key_frame defs i d p cols s :
  defs !! i = Some d -> td_primary_key d = Some p ->
  dicts s !! td_columns d = Some cols ->
  frame defs s (del_dict_key (td_columns d) p s).2.
Proof.
  intros Hd Hp Hc. split; [| apply tables_ext_refl]. simpl.
  split; [apply length_insert |]. rewrite Hc. simpl.
  intros k d' Hk. destruct (decide (k = td_columns d)) as [-> | Hne].
  - rewrite Hc in Hk. injection Hk as <-. exists [p]. split.
    + constructor; [| constructor]. exists i, d. auto.
    + rewrite list_lookup_insert_eq by (eapply lookup_lt_Some; eauto).
      rewrite dict_delete_filter. reflexivity.
  - exists []. split; [constructor |].
    rewrite list_lookup_insert_ne by congruence. rewrite filter_keys_nil. exact Hk.
Qed.

Lemma primary_key_of_frame defs i d s :
  defs !! i = Some d -> frame defs s (primary_key_of d s).2.
Proof.
  intros Hd. unfold primary_key_of.
  destruct (td_primary_key d) as [p|] eqn:Hp; [| apply frame_refl].
  rewrite run_bind. unfold get_dict.
  destruct (dicts s !! td_columns d) as [cols|] eqn:Hc; [| apply frame_refl]. simpl.
  rewrite run_bind. destruct (dict_lookup p cols) as [v|]; [| apply frame_refl]. simpl.
  rewrite run_bind. pose proof (construct_column_value_same p v s) as Hs.
  destruct (construct_column_value p v s) as [[c|e] s1]; simpl in Hs; subst s1;
    [| apply frame_refl].
  rewrite run_bind. simpl. eapply del_dict_key_frame; eauto.
Qed.

Lemma new_table_frame defs n pk s : frame defs s (new_table n pk s).2.
Proof.
  unfold new_table. rewrite run_bind. simpl.
  destruct (str_in _ _); [apply frame_refl |].
  destruct (String.eqb _ _); [apply frame_refl |].
  split; [apply dicts_ext_refl |]. simpl.
  eexists (tables s), _. split; [reflexivity | apply Forall2_tbl_rel_refl].
Qed.

(** ** Looking tables up *)

Lemma find_table_app_l n ts extra t :
  find_table n ts = Some t -> find_table n (ts ++ extra) = Some t.
Proof.
  unfold find_table. induction ts as [|t0 ts IH]; simpl; [discriminate |].
  destruct (String.eqb _ _); auto.
Qed.

Lemma find_table_Forall2 n ts ts2 t :
  Forall2 tbl_rel ts ts2 -> find_table n ts = Some t ->
  exists t', find_table n ts2 = Some t' /\ tbl_rel t t'.
Proof.
  intros HF. revert t. induction HF as [|t1 t2 l1 l2 R12 _ IH]; intros t; simpl;
    [discriminate |].
  unfold find_table in *. simpl. destruct R12 as (Hn & Hp & Hc). rewrite Hn.
  destruct (String.eqb (tbl_name t1) n); [| apply IH].
  intros H. injection H as <-. exists t2. split; [reflexivity | split; auto].
Qed.

Lemma table_names_Forall2 ts ts2 :
  Forall2 tbl_rel ts ts2 -> table_names ts2 = table_names ts.
Proof.
  induction 1 as [|t1 t2 l1 l2 (Hn & _) _ IH]; simpl; [reflexivity |].
  rewrite Hn, IH. reflexivity.
Qed.

Lemma frame_find defs s s' n t :
  frame defs s s' -> find_table n (tables s) = Some t ->
  exists t', find_table n (tables s') = Some t' /\ tbl_rel t t'.
Proof.
  intros [_ (ts2 & extra & Hts & HF)] Ht. rewrite Hts.
  destruct (find_table_Forall2 _ _ _ _ HF Ht) as (t' & Ht' & R).
  exists t'. split; [apply find_table_app_l; exact Ht' | exact R].
Qed.

Lemma frame_registered defs s s' n :
  frame defs s s' -> is_Some (find_table n (tables s)) ->
  is_Some (find_table n (tables s')).
Proof.
  intros Hf [t Ht]. destruct (frame_find _ _ _ _ _ Hf Ht) as (t' & Ht' & _). eauto.
Qed.

Lemma frame_pk_ok defs s s' n :
  frame defs s s' -> is_Some (find_table n (tables s)) -> pk_ok n s -> pk_ok n s'.
Proof.
  intros Hf [t Ht] Hpk t'' Ht''.
  destruct (frame_find _ _ _ _ _ Hf Ht) as (t' & Ht' & (_ & Hp & _)).
  rewrite Ht' in Ht''. injection Ht'' as <-. rewrite Hp. apply Hpk; exact Ht.
Qed.

Lemma update_table_notin n f ts extra :
  str_in n (table_names ts) = false ->
  update_table n f (ts ++ extra) = ts ++ update_table n f extra.
Proof.
  unfold update_table. intros Hn. rewrite map_app. f_equal.
  induction ts as [|t ts IH]; simpl in *; [reflexivity |].
  apply orb_false_iff in Hn as [H1 H2].
  rewrite String.eqb_sym, H1. f_equal. apply IH, H2.
Qed.

Lemma find_table_update_same n f ts :
  (forall t, tbl_name (f t) = tbl_name t) ->
  find_table n (update_table n f ts) = option_map f (find_table n ts).
Proof.
  intros Hf. unfold find_table, update_table.
  induction ts as [|t ts IH]; simpl; [reflexivity |].
  destruct (String.eqb (tbl_name t) n) eqn:E; simpl.
  - rewrite Hf, E. reflexivity.
  - rewrite E. exact IH.
Qed.

Lemma find_table_update_other m n f ts :
  m <> n -> (forall t, tbl_name (f t) = tbl_name t) ->
  find_table m (update_table n f ts) = find_table m ts.
Proof.
  intros Hmn Hf. unfold find_table, update_table.
  induction ts as [|t ts IH]; simpl; [reflexivity |].
  destruct (String.eqb (tbl_name t) n) eqn:E; simpl.
  - apply String.eqb_eq in E. rewrite Hf.
    destruct (String.eqb (tbl_name t) m) eqn:E'; [| exact IH].
    apply String.eqb_eq in E'. congruence.
  - destruct (String.eqb (tbl_name t) m); [reflexivity | exact IH].
Qed.

(** ** A whole call of [construct_table] stays in the frame *)

Lemma append_ordinary_loop_frame defs s0 n name tn s :
  str_in n (table_names (tables s0)) = false ->
  loop_frame defs s0 n s ->
  loop_frame defs s0 n ((construct_column name tn ≫= append_column n) s).2.
Proof.
  intros Hn (Hf & Hreg & Hpk). unfold construct_column. rewrite run_bind.
  destruct (str_in tn sqlalchemy_types);
    [simpl | destruct (str_in tn sqlalchemy_other_names); simpl; split; auto].
  set (c := {| col_name := name; col_type := Some tn;
               col_primary_key := false; col_foreign_key := None |}).
  destruct (append_column_state n c s) as [-> | ->]; [split; auto |].
  destruct Hf as [HD (ts2 & extra & Hts & HF)].
  assert (Hattach : forall t, tbl_name (attach_column c t) = tbl_name t) by reflexivity.
  split; [| split].
  - split; [exact HD |]. simpl. rewrite Hts, update_table_notin.
    + eexists ts2, _. split; [reflexivity | exact HF].
    + rewrite (table_names_Forall2 _ _ HF). exact Hn.
  - simpl. rewrite find_table_update_same by exact Hattach.
    destruct Hreg as [t ->]. simpl. eauto.
  - intros t'. simpl. rewrite find_table_update_same by exact Hattach.
    destruct (find_table n (tables s)) as [t|] eqn:Ht; simpl; [| discriminate].
    intros H. injection H as <-. exact (Hpk t Ht).
Qed.

Lemma construct_columns_frame defs (child : nat -> M unit) d n0 s0 :
  (forall j s, frame defs s (child j s).2) ->
  str_in (td_name d) (table_names (tables s0)) = false ->
  forall es, preserves (loop_frame defs s0 (td_name d))
                       (construct_columns defs child d n0 es).
Proof.
  intros Hchild Hn es. induction es as [|[name v] es IH]; simpl;
    (apply preserves_bind; [apply preserves_same; apply check_size_same | intros _]).
  - apply preserves_same. reflexivity.
  - apply preserves_bind; [| intros _; exact IH].
    destruct v as [tn | j].
    + intros s Hs. apply append_ordinary_loop_frame; assumption.
    + apply preserves_bind.
      { intros s (Hf & Hreg & Hpk). pose proof (Hchild j s) as Hc.
        split; [eapply frame_trans; eauto | split].
        - eapply frame_registered; eauto.
        - eapply frame_pk_ok; eauto. }
      intros _. apply preserves_bind; [apply preserves_same; apply get_def_same |].
      intros child_def s (Hf & Hreg & Hpk).
      pose proof (construct_foreign_key_frame defs (td_name d) (td_name child_def) s Hpk) as Hc.
      split; [eapply frame_trans; eauto | split].
      * eapply frame_registered; eauto.
      * eapply frame_pk_ok; eauto.
Qed.

Lemma str_in_true x l : str_in x l = true <-> In x l.
Proof.
  unfold str_in. rewrite existsb_exists. split.
  - intros (y & Hy & E). apply String.eqb_eq in E. subst. exact Hy.
  - intros H. exists x. split; [exact H | apply String.eqb_refl].
Qed.

Lemma find_table_Some_in n ts :
  In n (table_names ts) -> exists t, find_table n ts = Some t.
Proof.
  unfold find_table, table_names. induction ts as [|t ts IH]; simpl; [tauto |].
  intros [Hn | Hin].
  - subst. rewrite String.eqb_refl. eauto.
  - destruct (String.eqb (tbl_name t) n); eauto.
Qed.

Lemma find_table_None n ts :
  str_in n (table_names ts) = false -> find_table n ts = None.
Proof.
  intros H. destruct (find_table n ts) as [t|] eqn:Ht; [| reflexivity].
  exfalso. pose proof (find_table_name _ _ _ Ht) as Hn.
  unfold find_table in Ht. apply find_some in Ht as [Hin _].
  assert (Hin' : In n (table_names ts)) by (rewrite <- Hn; apply in_map; exact Hin).
  apply str_in_true in Hin'. congruence.
Qed.

Lemma find_table_snoc_new n ts t :
  str_in n (table_names ts) = false -> tbl_name t = n ->
  find_table n (ts ++ [t]) = Some t.
Proof.
  intros H Ht. pose proof (find_table_None _ _ H) as HN. unfold find_table in *.
  induction ts as [|t0 ts IH]; simpl in *.
  - rewrite Ht, String.eqb_refl. reflexivity.
  - destruct (String.eqb (tbl_name t0) n); [discriminate |].
    apply IH; [apply orb_false_iff in H as [_ H]; exact H | exact HN].
Qed.

Lemma new_table_cases n pk s :
  (exists e, new_table n pk s = (Raise e, s)) \/
  (str_in n (table_names (tables s)) = false /\ col_name pk <> "" /\
   new_table n pk s =
     (Ok (), {| dicts := dicts s; tables := tables s ++ [initial_table n pk] |})).
Proof.
  unfold new_table. rewrite run_bind. simpl.
  destruct (str_in n _) eqn:E1; [left; eexists; reflexivity |].
  destruct (String.eqb (col_name pk) "") eqn:E2; [left; eexists; reflexivity |].
  right. split; [reflexivity | split; [| reflexivity]].
  intros H. rewrite H in E2. discriminate.
Qed.

Lemma primary_key_of_Ok d s pk s1 :
  primary_key_of d s = (Ok pk, s1) ->
  tables s1 = tables s /\
  match td_primary_key d with
  | None => pk = default_primary_key /\ s1 = s
  | Some p => col_name pk = p /\ col_primary_key pk = false /\
      exists cols v, dicts s !! td_columns d = Some cols /\
        dict_lookup p cols = Some v /\
        construct_column_value p v s = (Ok pk, s) /\
        s1 = (del_dict_key (td_columns d) p s).2
  end.
Proof.
  unfold primary_key_of. destruct (td_primary_key d) as [p|].
  - rewrite run_bind. unfold get_dict.
    destruct (dicts s !! td_columns d) as [cols|] eqn:Hc; [| discriminate]. simpl.
    rewrite run_bind. destruct (dict_lookup p cols) as [v|] eqn:Hv; [| discriminate].
    simpl. rewrite run_bind.
    destruct (construct_column_value p v s) as [[c|e] s2] eqn:Hcc; [| discriminate].
    pose proof (construct_column_value_same p v s) as Hs. rewrite Hcc in Hs.
    simpl in Hs. subst s2. rewrite run_bind. simpl. intros H. injection H as <- <-.
    assert (Hcol : col_name c = p /\ col_primary_key c = false).
    { destruct v as [tn|]; simpl in Hcc; [| discriminate].
      unfold construct_column in Hcc. destruct (str_in _ sqlalchemy_types); [| destruct (str_in _ sqlalchemy_other_names); discriminate].
      injection Hcc as <-. split; reflexivity. }
    split; [reflexivity |]. destruct Hcol as [H1 H2].
    split; [exact H1 | split; [exact H2 |]]. exists cols, v. auto.
  - intros H. injection H as <- <-. auto.
Qed.

Lemma construct_table_frame defs fuel i s :
  frame defs s (construct_table defs fuel i s).2.
Proof.
  revert i s. induction fuel as [|f IH]; intros i s; [apply frame_refl |].
  simpl. rewrite run_bind. unfold get_def at 1.
  destruct (defs !! i) as [d|] eqn:Hd; [| apply frame_refl]. simpl.
  rewrite run_bind. simpl.
  destruct (str_in (td_name d) (table_names (tables s))) eqn:Hn; [apply frame_refl |].
  rewrite run_bind. pose proof (primary_key_of_frame defs i d s Hd) as Hf1.
  destruct (primary_key_of d s) as [[pk|e] s1] eqn:Hpk; simpl in *; [| exact Hf1].
  apply primary_key_of_Ok in Hpk as [_ Hpk].
  rewrite run_bind.
  destruct (new_table_cases (td_name d) pk s1) as [[e ->] | (Hn1 & _ & ->)];
    [exact Hf1 |].
  simpl. set (s2 := {| dicts := dicts s1; tables := _ |}).
  assert (Hloop : loop_frame defs s1 (td_name d) s2).
  { split; [| split].
    - split; [apply dicts_ext_refl |]. eexists (tables s1), _.
      split; [reflexivity | apply Forall2_tbl_rel_refl].
    - simpl. rewrite find_table_snoc_new by auto. eauto.
    - intros t. simpl. rewrite find_table_snoc_new by auto.
      intros H. injection H as <-. simpl.
      destruct (td_primary_key d) as [p|].
      + destruct Hpk as (_ & -> & _). left. reflexivity.
      + destruct Hpk as [-> _]. right. reflexivity. }
  rewrite run_bind. unfold get_dict at 1.
  destruct (dicts s2 !! td_columns d) as [cols|]; simpl.
  - eapply frame_trans; [exact Hf1 |].
    exact (proj1 (construct_columns_frame defs (construct_table defs f) d _ s1
                    (fun j s => IH j s) Hn1 cols s2 Hloop)).
  - eapply frame_trans; [exact Hf1 | exact (proj1 Hloop)].
Qed.

(** ** What the metadata and the dicts look like after a build *)

Lemma col_replace_names c cs :
  map col_name (col_replace c cs) = map col_name cs \/
  map col_name (col_replace c cs) = map col_name cs ++ [col_name c].
Proof.
  unfold col_replace.
  destruct (existsb (fun x => String.eqb (col_name x) (col_name c)) cs); [left | right].
  - rewrite map_map. apply map_ext. intros x.
    destruct (String.eqb (col_name x) (col_name c)) eqn:E; [| reflexivity].
    apply String.eqb_eq in E. symmetry. exact E.
  - rewrite map_app. reflexivity.
Qed.

Lemma fk_ext_prefix cs cs' :
  rtc fk_step cs cs' -> map col_name cs `prefix_of` map col_name cs'.
Proof.
  induction 1 as [cs | cs1 cs2 cs3 [P ->] _ IH]; [reflexivity |].
  etrans; [| exact IH].
  destruct (col_replace_names (fkcol P) cs1) as [-> | ->]; [reflexivity |].
  apply prefix_app_r. reflexivity.
Qed.

(** C10: the metadata only grows.  Whatever the outcome of [build], the
    tables present before are still there, at the same place and under
    the same name, and their column names are only extended. *)
Theorem build_registry_only_grows defs i s :
  let s' := (build defs i s).2 in
  exists ts2 extra : list Table,
    tables s' = ts2 ++ extra /\
    Forall2 (fun t t' => tbl_name t' = tbl_name t /\
                         map col_name (tbl_columns t) `prefix_of` map col_name (tbl_columns t'))
            (tables s) ts2.
Proof.
  destruct (construct_table_frame defs (S (length defs)) i s) as [_ (ts2 & extra & Hts & HF)].
  exists ts2, extra. split; [exact Hts |].
  eapply Forall2_impl; [exact HF |].
  intros t t' (Hn & _ & Hc). split; [exact Hn | apply fk_ext_prefix; exact Hc].
Qed.

(** C9, as it holds: whatever the outcome of [build], every dict object of
    the document ends as its initial contents without the entries whose
    keys are [primary_key]s of definitions using that very dict object;
    the [TableDefinition] objects themselves are never written. *)
Theorem build_only_deletes_primary_keys defs i s :
  dicts_ext defs (dicts s) (dicts (build defs i s).2).
Proof. apply (construct_table_frame defs (S (length defs)) i s). Qed.

(** ** Enough fuel *)

Lemma filter_length_le {A} (p q : A -> bool) (l : list A) :
  (forall x, In x l -> q x = true -> p x = true) ->
  length (List.filter q l) <= length (List.filter p l).
Proof.
  induction l as [|x l IH]; simpl; intros H; [lia |].
  assert (IH' : length (List.filter q l) <= length (List.filter p l)) by auto.
  destruct (q x) eqn:Eq.
  - rewrite (H x (or_introl eq_refl) Eq). simpl. lia.
  - destruct (p x); simpl; lia.
Qed.

Lemma filter_length_lt {A} (p q : A -> bool) (l : list A) y :
  (forall x, In x l -> q x = true -> p x = true) ->
  In y l -> p y = true -> q y = false ->
  length (List.filter q l) < length (List.filter p l).
Proof.
  induction l as [|x l IH]; simpl; intros H Hy Hp Hq; [contradiction |].
  destruct Hy as [-> | Hy].
  - rewrite Hp, Hq. simpl.
    pose proof (filter_length_le p q l (fun x Hx => H x (or_intror Hx))). lia.
  - assert (IH' : length (List.filter q l) < length (List.filter p l)) by auto.
    destruct (q x) eqn:Eq.
    + rewrite (H x (or_introl eq_refl) Eq). simpl. lia.
    + destruct (p x); simpl; lia.
Qed.

Lemma unbuilt_incl defs s s' :
  incl (table_names (tables s)) (table_names (tables s')) ->
  unbuilt defs s' <= unbuilt defs s.
Proof.
  intros Hincl. unfold unbuilt. apply filter_length_le. intros d _.
  destruct (str_in (td_name d) (table_names (tables s))) eqn:E; [| reflexivity].
  apply str_in_true, Hincl, str_in_true in E. rewrite E. discriminate.
Qed.

Lemma unbuilt_registers defs s s' i d :
  incl (table_names (tables s)) (table_names (tables s')) ->
  defs !! i = Some d ->
  str_in (td_name d) (table_names (tables s)) = false ->
  In (td_name d) (table_names (tables s')) ->
  unbuilt defs s' < unbuilt defs s.
Proof.
  intros Hincl Hd Hn Hin. unfold unbuilt. apply (filter_length_lt _ _ _ d).
  - intros d' _.
    destruct (str_in (td_name d') (table_names (tables s))) eqn:E; [| reflexivity].
    apply str_in_true, Hincl, str_in_true in E. rewrite E. discriminate.
  - eapply list_elem_of_In, list_elem_of_lookup_2; exact Hd.
  - rewrite Hn. reflexivity.
  - apply str_in_true in Hin. rewrite Hin. reflexivity.
Qed.

Lemma unbuilt_le defs s : unbuilt defs s <= length defs.
Proof. unfold unbuilt. induction defs as [|d ds IH]; simpl; [lia |]. destruct (negb _); simpl; lia. Qed.

Lemma update_table_names n f ts :
  (forall t, tbl_name (f t) = tbl_name t) ->
  table_names (update_table n f ts) = table_names ts.
Proof.
  intros Hf. unfold table_names, update_table. rewrite map_map. apply map_ext.
  intros t. destruct (String.eqb _ _); [apply Hf | reflexivity].
Qed.

Lemma frame_names defs s s' :
  frame defs s s' -> incl (table_names (tables s)) (table_names (tables s')).
Proof.
  intros [_ (ts2 & extra & -> & HF)]. unfold table_names at 2. rewrite map_app.
  fold (table_names ts2). rewrite (table_names_Forall2 _ _ HF). apply incl_appl, incl_refl.
Qed.

Lemma append_column_names n c s :
  table_names (tables (append_column n c s).2) = table_names (tables s).
Proof.
  destruct (append_column_state n c s) as [-> | ->]; [reflexivity |].
  apply update_table_names. reflexivity.
Qed.

Lemma construct_foreign_key_names one many s :
  table_names (tables (construct_foreign_key one many s).2) = table_names (tables s).
Proof.
  unfold construct_foreign_key, get_table. rewrite run_bind.
  destruct (find_table one (tables s)) as [t|]; [| reflexivity]. simpl.
  destruct (tbl_primary_key t); [reflexivity |]. rewrite run_bind.
  destruct (find_table many (tables s)); [| reflexivity]. simpl.
  destruct (find _ _); [apply append_column_names | reflexivity].
Qed.

Lemma append_column_no_oof n c s : fst (append_column n c s) <> Raise OutOfFuel.
Proof.
  unfold append_column, get_table. rewrite run_bind.
  destruct (find_table n (tables s)); simpl; [| discriminate].
  destruct (String.eqb _ _); [discriminate |]. rewrite run_bind. simpl.
  destruct (negb _ && _); discriminate.
Qed.

Lemma construct_foreign_key_no_oof one many s :
  fst (construct_foreign_key one many s) <> Raise OutOfFuel.
Proof.
  unfold construct_foreign_key, get_table. rewrite run_bind.
  destruct (find_table one (tables s)) as [t|]; simpl; [| discriminate].
  destruct (tbl_primary_key t); [discriminate |]. rewrite run_bind.
  destruct (find_table many (tables s)); simpl; [| discriminate].
  destruct (find _ _); [apply append_column_no_oof | discriminate].
Qed.

Lemma construct_column_no_oof name tn s : fst (construct_column name tn s) <> Raise OutOfFuel.
Proof. unfold construct_column. repeat destruct (str_in _ _); discriminate. Qed.

Lemma check_size_no_oof k n0 s : fst (check_size k n0 s) <> Raise OutOfFuel.
Proof.
  unfold check_size. rewrite run_bind. unfold get_dict.
  destruct (dicts s !! k); simpl; [| discriminate].
  destruct (Nat.eqb _ _); discriminate.
Qed.

Lemma get_def_no_oof defs i s : fst (get_def defs i s) <> Raise OutOfFuel.
Proof. unfold get_def. destruct (defs !! i); discriminate. Qed.

Lemma get_dict_no_oof k s : fst (get_dict k s) <> Raise OutOfFuel.
Proof. unfold get_dict. destruct (dicts s !! k); discriminate. Qed.

Lemma new_table_no_oof n pk s : fst (new_table n pk s) <> Raise OutOfFuel.
Proof.
  unfold new_table. rewrite run_bind. simpl.
  destruct (str_in _ _); [discriminate |].
  destruct (String.eqb _ _); discriminate.
Qed.

Lemma primary_key_of_no_oof d s : fst (primary_key_of d s) <> Raise OutOfFuel.
Proof.
  unfold primary_key_of. destruct (td_primary_key d) as [p|]; [| discriminate].
  rewrite run_bind. unfold get_dict.
  destruct (dicts s !! td_columns d) as [cols|]; simpl; [| discriminate].
  rewrite run_bind. destruct (dict_lookup p cols) as [v|]; simpl; [| discriminate].
  rewrite run_bind. destruct v as [tn|]; simpl; [| discriminate].
  unfold construct_column. repeat destruct (str_in _ _); simpl; discriminate.
Qed.

Lemma fuel_safe_bind {A B} P (m : M A) (f : A -> M B) :
  fuel_safe P m -> (forall a, fuel_safe P (f a)) -> fuel_safe P (m ≫= f).
Proof.
  intros Hm Hf s Hs. rewrite run_bind. destruct (Hm s Hs) as [H1 H2].
  destruct (m s) as [[a|e] s1]; simpl in *; [apply Hf; exact H2 |].
  split; [congruence | exact H2].
Qed.

Lemma fuel_safe_names {A} defs f (m : M A) :
  (forall s, fst (m s) <> Raise OutOfFuel) ->
  (forall s, incl (table_names (tables s)) (table_names (tables (m s).2))) ->
  fuel_safe (fun s => unbuilt defs s < f) m.
Proof.
  intros H1 H2 s Hs. split; [apply H1 |].
  pose proof (unbuilt_incl defs _ _ (H2 s)). lia.
Qed.

Lemma construct_columns_fuel_safe defs f (child : nat -> M unit) d n0 :
  (forall j, fuel_safe (fun s => unbuilt defs s < f) (child j)) ->
  forall es, fuel_safe (fun s => unbuilt defs s < f) (construct_columns defs child d n0 es).
Proof.
  intros Hchild es. induction es as [|[name v] es IH]; simpl;
    (apply fuel_safe_bind;
     [apply fuel_safe_names; [apply check_size_no_oof |
        intros s; rewrite check_size_same; apply incl_refl] | intros _]).
  - apply fuel_safe_names; [discriminate | intros; apply incl_refl].
  - apply fuel_safe_bind; [| intros _; exact IH].
    destruct v as [tn | j].
    + apply fuel_safe_bind.
      * apply fuel_safe_names; [apply construct_column_no_oof |
          intros s; rewrite construct_column_same; apply incl_refl].
      * intros c. apply fuel_safe_names; [apply append_column_no_oof |
          intros s; rewrite append_column_names; apply incl_refl].
      + apply fuel_safe_bind; [apply Hchild | intros _].
      apply fuel_safe_bind.
      * apply fuel_safe_names; [apply get_def_no_oof |
          intros s; rewrite get_def_same; apply incl_refl].
      * intros c. apply fuel_safe_names; [apply construct_foreign_key_no_oof |
          intros s; rewrite construct_foreign_key_names; apply incl_refl].
Qed.

(** With more fuel than unbuilt definitions, [construct_table] never
    runs out of fuel. *)
Lemma construct_table_enough_fuel defs fuel :
  forall i s, unbuilt defs s < fuel -> fst (construct_table defs fuel i s) <> Raise OutOfFuel.
Proof.
  induction fuel as [|f IH]; intros i s Hs; [lia |].
  simpl. rewrite run_bind. unfold get_def at 1.
  destruct (defs !! i) as [d|] eqn:Hd; simpl; [| discriminate].
  rewrite run_bind. simpl.
  destruct (str_in (td_name d) (table_names (tables s))) eqn:Hn; [discriminate |].
  rewrite run_bind. pose proof (primary_key_of_no_oof d s) as Hnf.
  pose proof (primary_key_of_frame defs i d s Hd) as Hf1.
  destruct (primary_key_of d s) as [[pk|e] s1] eqn:Hpk; simpl in *; [| congruence].
  rewrite run_bind. pose proof (new_table_no_oof (td_name d) pk s1) as Hnf2.
  destruct (new_table_cases (td_name d) pk s1) as [[e He] | (Hn1 & _ & He)];
    rewrite He in *; [exact Hnf2 |].
  simpl. set (s2 := {| dicts := dicts s1; tables := _ |}).
  assert (H2 : unbuilt defs s2 < f).
  { pose proof (unbuilt_incl defs _ _ (frame_names _ _ _ Hf1)).
    assert (unbuilt defs s2 < unbuilt defs s1); [| lia].
    apply (unbuilt_registers defs s1 s2 i d); [| exact Hd | exact Hn1 |].
    - unfold s2, table_names. simpl. rewrite map_app. apply incl_appl, incl_refl.
    - unfold s2, table_names. simpl. rewrite map_app. apply in_or_app. right. left. reflexivity. }
  rewrite run_bind. unfold get_dict at 1.
  destruct (dicts s2 !! td_columns d) as [cols|]; simpl; [| discriminate].
  apply (construct_columns_fuel_safe defs f); [| exact H2].
  intros j s' Hs'. split; [apply IH; exact Hs' |].
  pose proof (unbuilt_incl defs _ _ (frame_names _ _ _ (construct_table_frame defs f j s'))).
  lia.
Qed.

(** [build] never runs out of fuel. *)
Lemma build_enough_fuel defs i s : fst (build defs i s) <> Raise OutOfFuel.
Proof. apply construct_table_enough_fuel. pose proof (unbuilt_le defs s). lia. Qed.

(** ** Registration of the root *)

Lemma find_table_in_names n ts t :
  find_table n ts = Some t -> In n (table_names ts).
Proof.
  intros Ht. pose proof (find_table_name _ _ _ Ht) as Hn.
  unfold find_table in Ht. apply find_some in Ht as [Hin _].
  rewrite <- Hn. apply in_map. exact Hin.
Qed.

Lemma construct_table_registered defs f i d s s' :
  defs !! i = Some d -> construct_table defs (S f) i s = (Ok (), s') ->
  In (td_name d) (table_names (tables s')).
Proof.
  intros Hd. simpl. rewrite run_bind. unfold get_def at 1. rewrite Hd.
  rewrite run_bind. simpl.
  destruct (str_in (td_name d) (table_names (tables s))) eqn:Hn.
  { intros H. injection H as <-. apply str_in_true. exact Hn. }
  rewrite run_bind.
  destruct (primary_key_of d s) as [[pk|e] s1] eqn:Hpk; [| discriminate].
  apply primary_key_of_Ok in Hpk as [_ Hpk].
  rewrite run_bind.
  destruct (new_table_cases (td_name d) pk s1) as [[e ->] | (Hn1 & _ & ->)];
    [discriminate |].
  simpl. set (s2 := {| dicts := dicts s1; tables := _ |}).
  assert (Hloop : loop_frame defs s1 (td_name d) s2).
  { split; [| split].
    - split; [apply dicts_ext_refl |]. eexists (tables s1), _.
      split; [reflexivity | apply Forall2_tbl_rel_refl].
    - simpl. rewrite find_table_snoc_new by auto. eauto.
    - intros t. simpl. rewrite find_table_snoc_new by auto.
      intros H. injection H as <-. simpl.
      destruct (td_primary_key d) as [p|].
      + destruct Hpk as (_ & -> & _). left. reflexivity.
      + destruct Hpk as [-> _]. right. reflexivity. }
  rewrite run_bind. unfold get_dict at 1.
  destruct (dicts s2 !! td_columns d) as [cols|]; simpl; [| discriminate].
  intros Hrun.
  pose proof (construct_columns_frame defs (construct_table defs f) d (length cols) s1
                (fun j s => construct_table_frame defs f j s) Hn1 cols s2 Hloop) as Hl.
  rewrite Hrun in Hl. destruct Hl as (_ & [t Ht] & _). simpl in Ht.
  eapply find_table_in_names; exact Ht.
Qed.

(** C6: a build whose root name is already in the metadata returns at
    once, without error and without touching the metadata or the
    dicts; hence a second build of the same root after a successful
    one raises nothing and changes nothing (no duplicate table). *)
Theorem build_idempotent defs i d s :
  defs !! i = Some d ->
  (In (td_name d) (table_names (tables s)) -> build defs i s = (Ok (), s)) /\
  (forall s', build defs i s = (Ok (), s') -> build defs i s' = (Ok (), s')).
Proof.
  intros Hd.
  assert (Hnow : forall s0, In (td_name d) (table_names (tables s0)) ->
                            build defs i s0 = (Ok (), s0)).
  { intros s0 Hin. unfold build. simpl. rewrite run_bind. unfold get_def at 1.
    rewrite Hd. rewrite run_bind. simpl.
    apply str_in_true in Hin. rewrite Hin. reflexivity. }
  split; [apply Hnow |].
  intros s' Hrun. apply Hnow. eapply construct_table_registered; [exact Hd | exact Hrun].
Qed.

Lemma build_idempotent_witness :
  let s' := snd (build people_defs 0 (fresh_state people_dicts)) in
  build people_defs 0 s' = (Ok (), s').
Proof.
  apply (proj2 (build_idempotent people_defs 0 _ (fresh_state people_dicts) eq_refl)).
  vm_compute. reflexivity.
Defined.

(** ** The start of a call that registers its table *)

Lemma construct_table_fresh defs f i d s pk s1 cols :
  defs !! i = Some d ->
  str_in (td_name d) (table_names (tables s)) = false ->
  primary_key_of d s = (Ok pk, s1) ->
  str_in (td_name d) (table_names (tables s1)) = false ->
  col_name pk <> "" ->
  dicts s1 !! td_columns d = Some cols ->
  construct_table defs (S f) i s =
  construct_columns defs (construct_table defs f) d (length cols) cols
    {| dicts := dicts s1; tables := tables s1 ++ [initial_table (td_name d) pk] |}.
Proof.
  intros Hd Hn Hpk Hn1 Hblank Hc. simpl. rewrite run_bind. unfold get_def at 1.
  rewrite Hd. rewrite run_bind. simpl. rewrite Hn. rewrite run_bind, Hpk.
  rewrite run_bind. unfold new_table. rewrite run_bind. simpl. rewrite Hn1.
  destruct (String.eqb (col_name pk) "") eqn:E;
    [apply String.eqb_eq in E; contradiction |].
  simpl. rewrite run_bind. unfold get_dict at 1. simpl. rewrite Hc. reflexivity.
Qed.

Lemma check_size_ok k n0 s D :
  dicts s !! k = Some D -> length D = n0 -> check_size k n0 s = (Ok (), s).
Proof.
  intros HD Hl. unfold check_size. rewrite run_bind. unfold get_dict. rewrite HD.
  simpl. rewrite Hl, Nat.eqb_refl. reflexivity.
Qed.

Lemma append_column_ok n c s t :
  find_table n (tables s) = Some t -> col_name c <> "" -> col_primary_key c = false ->
  ~ In (col_name c) (map col_name (tbl_primary_key t)) ->
  append_column n c s =
  (Ok (), {| dicts := dicts s; tables := update_table n (attach_column c) (tables s) |}).
Proof.
  intros Ht Hb Hf Hpk. unfold append_column. rewrite run_bind. unfold get_table.
  rewrite Ht. simpl.
  destruct (String.eqb (col_name c) "") eqn:E; [apply String.eqb_eq in E; contradiction |].
  rewrite run_bind. simpl. rewrite Hf.
  replace (existsb _ _) with false; [reflexivity |]. symmetry.
  apply not_true_iff_false. rewrite existsb_exists. intros (x & Hx & Ex).
  apply String.eqb_eq in Ex. apply Hpk. rewrite <- Ex. apply in_map. exact Hx.
Qed.

Lemma construct_columns_unknown defs child d n0 pre c tn post s D :
  dicts s !! td_columns d = Some D -> length D = n0 ->
  (exists t, find_table (td_name d) (tables s) = Some t /\
             tbl_primary_key t = [default_primary_key]) ->
  str_in tn types_dict_names = false ->
  Forall plain_entry pre ->
  let r := construct_columns defs child d n0 (pre ++ (c, CType tn) :: post) s in
  fst r = Raise (KeyError (unknown_type_msg tn c)) /\
  is_Some (find_table (td_name d) (tables (snd r))).
Proof.
  intros HD Hl Ht Htn Hpre. revert s HD Ht.
  unfold types_dict_names in Htn. rewrite str_in_app in Htn.
  apply orb_false_iff in Htn as [Htn Hoth].
  induction Hpre as [|[name v] pre (tn' & Hv & Hcat & Hb & Hid) _ IH]; intros s HD (t & Ht & Hpk);
    simpl; rewrite run_bind, (check_size_ok _ _ _ D HD Hl).
  - rewrite run_bind, run_bind. unfold construct_column. rewrite Htn, Hoth. simpl.
    split; [reflexivity | eauto].
  - simpl in Hv. subst v. rewrite run_bind, run_bind. unfold construct_column.
    rewrite Hcat. simpl. rewrite (append_column_ok _ _ _ t Ht); simpl; auto.
    + apply IH; [exact HD |]. exists (attach_column
        {| col_name := name; col_type := Some tn'; col_primary_key := false;
           col_foreign_key := None |} t).
      simpl. rewrite find_table_update_same by reflexivity. rewrite Ht. simpl.
      split; [reflexivity | exact Hpk].
    + rewrite Hpk. simpl in *. intros [E | []]. congruence.
Qed.

Lemma str_app_assoc (a b c : string) : (a +:+ b) +:+ c = a +:+ (b +:+ c).
Proof. induction a as [|x a IH]; [reflexivity | exact (f_equal (String x) IH)]. Qed.

Lemma unknown_type_msg_names tn c :
  exists a b e, unknown_type_msg tn c = a +:+ tn +:+ b +:+ c +:+ e.
Proof.
  exists ("Unknown type " +:+ dquote), (dquote +:+ " in column " +:+ dquote), dquote.
  unfold unknown_type_msg. rewrite !str_app_assoc. reflexivity.
Qed.

(** C3, as it holds: when a definition without [primary_key], whose table
    is not yet in the metadata, has a column [c] of a type name [tn] that
    is not a key of [types.__dict__], preceded only by ordinary columns
    of accepted types, the build raises a [KeyError] whose message
    contains [tn] and then [c]; the table of the definition has been
    registered and stays in the metadata. *)
Theorem build_unknown_type_keeps_table defs i d s pre c tn post :
  defs !! i = Some d -> td_primary_key d = None ->
  ~ In (td_name d) (table_names (tables s)) ->
  dicts s !! td_columns d = Some (pre ++ (c, CType tn) :: post) ->
  ~ In tn types_dict_names ->
  Forall plain_entry pre ->
  let r := build defs i s in
  fst r = Raise (KeyError (unknown_type_msg tn c)) /\
  (exists a b e, unknown_type_msg tn c = a +:+ tn +:+ b +:+ c +:+ e) /\
  In (td_name d) (table_names (tables (snd r))).
Proof.
  intros Hd Hpk Hn Hc Htn Hpre.
  assert (Hn' : str_in (td_name d) (table_names (tables s)) = false).
  { apply not_true_iff_false. rewrite str_in_true. exact Hn. }
  assert (Htn' : str_in tn types_dict_names = false).
  { apply not_true_iff_false. rewrite str_in_true. exact Htn. }
  assert (Hpk0 : primary_key_of d s = (Ok default_primary_key, s)).
  { unfold primary_key_of. rewrite Hpk. reflexivity. }
  unfold build. rewrite (construct_table_fresh defs _ i d s _ s _ Hd Hn' Hpk0 Hn'
                           ltac:(discriminate) Hc).
  edestruct (construct_columns_unknown defs (construct_table defs (length defs)) d
               (length (pre ++ (c, CType tn) :: post)) pre c tn post
               {| dicts := dicts s;
                  tables := tables s ++ [initial_table (td_name d) default_primary_key] |}
               (pre ++ (c, CType tn) :: post) Hc eq_refl) as [H1 [t Ht]];
    [| exact Htn' | exact Hpre |].
  - eexists. simpl. rewrite find_table_snoc_new by auto. split; reflexivity.
  - split; [exact H1 | split; [apply unknown_type_msg_names |]].
    eapply find_table_in_names; exact Ht.
Qed.

Lemma build_unknown_type_keeps_table_witness :
  bogus_defs !! 0 = Some {| td_name := "t"; td_columns := 0; td_primary_key := None |} /\
  fst (build bogus_defs 0 (fresh_state bogus_dicts)) =
    Raise (KeyError (unknown_type_msg "Bogus" "x")).
Proof.
  split; [reflexivity |].
  refine (proj1 (build_unknown_type_keeps_table bogus_defs 0
            {| td_name := "t"; td_columns := 0; td_primary_key := None |}
            (fresh_state bogus_dicts) [] "x" "Bogus" [] _ _ _ _ _ _));
    [reflexivity | reflexivity | simpl; tauto | reflexivity | vm_compute; intuition discriminate | constructor].
Defined.

(** ** Table names stay distinct *)

Lemma preserves_names {A} (m : M A) :
  (forall s, table_names (tables (m s).2) = table_names (tables s)) ->
  preserves names_nodup m.
Proof. intros H s Hs. unfold names_nodup. rewrite H. exact Hs. Qed.

Lemma new_table_nodup n pk : preserves names_nodup (new_table n pk).
Proof.
  intros s Hs. destruct (new_table_cases n pk s) as [[e ->] | (Hn & _ & ->)]; [exact Hs |].
  unfold names_nodup, table_names in *. simpl. rewrite map_app. simpl.
  apply NoDup_app. split; [exact Hs | split; [| apply NoDup_singleton]].
  intros x Hx Hy. apply list_elem_of_singleton in Hy. subst x.
  apply list_elem_of_In, str_in_true in Hx. unfold table_names in Hn. congruence.
Qed.

Lemma primary_key_of_names d s :
  table_names (tables (primary_key_of d s).2) = table_names (tables s).
Proof.
  unfold primary_key_of. destruct (td_primary_key d) as [p|]; [| reflexivity].
  rewrite run_bind. unfold get_dict.
  destruct (dicts s !! td_columns d) as [cols|]; [| reflexivity]. simpl.
  rewrite run_bind. destruct (dict_lookup p cols) as [v|]; [| reflexivity]. simpl.
  rewrite run_bind. pose proof (construct_column_value_same p v s) as Hs.
  destruct (construct_column_value p v s) as [[c|e] s1]; simpl in Hs; subst s1;
    reflexivity.
Qed.

Lemma construct_columns_nodup defs (child : nat -> M unit) d n0 :
  (forall j, preserves names_nodup (child j)) ->
  forall es, preserves names_nodup (construct_columns defs child d n0 es).
Proof.
  intros Hchild es. induction es as [|[name v] es IH]; simpl;
    (apply preserves_bind; [apply preserves_same; apply check_size_same | intros _]).
  - apply preserves_same. reflexivity.
  - apply preserves_bind; [| intros _; exact IH].
    destruct v as [tn | j].
    + apply preserves_bind; [apply preserves_same; apply construct_column_same |].
      intros c. apply preserves_names. apply append_column_names.
    + apply preserves_bind; [apply Hchild | intros _].
      apply preserves_bind; [apply preserves_same; apply get_def_same |].
      intros c. apply preserves_names. apply construct_foreign_key_names.
Qed.

Lemma construct_table_nodup defs fuel i : preserves names_nodup (construct_table defs fuel i).
Proof.
  revert i. induction fuel as [|f IH]; intros i; simpl; [apply preserves_same; reflexivity |].
  apply preserves_bind; [apply preserves_same; apply get_def_same | intros d].
  apply preserves_bind; [apply preserves_same; reflexivity | intros ns].
  destruct (str_in _ _); [apply preserves_same; reflexivity |].
  apply preserves_bind; [apply preserves_names; apply primary_key_of_names | intros pk].
  apply preserves_bind; [apply new_table_nodup | intros _].
  apply preserves_bind; [apply preserves_same; apply get_dict_same | intros cols].
  apply construct_columns_nodup. exact IH.
Qed.

Lemma count_tables_nodup n ts :
  NoDup (table_names ts) -> In n (table_names ts) -> count_tables n ts = 1.
Proof.
  unfold count_tables, table_names. induction ts as [|t ts IH]; simpl; [tauto |].
  intros Hnd Hin. apply NoDup_cons in Hnd as [Hnot Hnd].
  destruct (String.eqb (tbl_name t) n) eqn:E.
  - apply String.eqb_eq in E. subst n. simpl.
    assert (H0 : List.filter (fun t0 => String.eqb (tbl_name t0) (tbl_name t)) ts = []).
    { clear IH Hnd Hin. rewrite list_elem_of_In in Hnot. induction ts as [|t' ts IH']; simpl in *; [reflexivity |].
      destruct (String.eqb (tbl_name t') (tbl_name t)) eqn:E';
        [apply String.eqb_eq in E'; tauto | apply IH'; tauto]. }
    rewrite H0. reflexivity.
  - destruct Hin as [Hn | Hin]; [apply String.eqb_neq in E; contradiction |].
    apply IH; assumption.
Qed.

(** ** The foreign key of a self-referential table *)

Lemma str_length_app (a b : string) : String.length (a +:+ b) = String.length a + String.length b.
Proof. induction a as [|x a IH]; [reflexivity | exact (f_equal S IH)]. Qed.

Lemma str_app_same_length (a b x y : string) :
  String.length a = String.length b -> a +:+ x = b +:+ y -> a = b.
Proof.
  revert b. induction a as [|ca a IH]; intros [|cb b] Hl He; try discriminate; [reflexivity |].
  injection He as -> He. f_equal. apply IH; [injection Hl as Hl; exact Hl | exact He].
Qed.

Lemma fk_name_inj P Q : fk_name P = fk_name Q -> P = Q.
Proof.
  unfold fk_name, fkcol. simpl. intros H.
  assert (Hl : String.length P = String.length Q).
  { apply (f_equal String.length) in H. rewrite !str_length_app in H. simpl in H. lia. }
  eapply str_app_same_length; [exact Hl | exact H].
Qed.

Lemma col_replace_in_self c cs : In c (col_replace c cs).
Proof.
  unfold col_replace.
  destruct (existsb (fun x => String.eqb (col_name x) (col_name c)) cs) eqn:E.
  - apply existsb_exists in E as (x & Hx & Ex). apply in_map_iff. exists x.
    rewrite Ex. split; [reflexivity | exact Hx].
  - apply in_or_app. right. left. reflexivity.
Qed.

Lemma col_replace_keep x c cs :
  In x cs -> col_name x <> col_name c -> In x (col_replace c cs).
Proof.
  intros Hx Hn. unfold col_replace.
  destruct (existsb _ cs).
  - apply in_map_iff. exists x. split; [| exact Hx].
    destruct (String.eqb (col_name x) (col_name c)) eqn:E; [| reflexivity].
    apply String.eqb_eq in E. contradiction.
  - apply in_or_app. left. exact Hx.
Qed.

Lemma fk_steps_keep n cs cs' :
  rtc fk_step cs cs' -> In (fkcol n) cs -> In (fkcol n) cs'.
Proof.
  induction 1 as [cs | cs1 cs2 cs3 [P ->] _ IH]; [tauto |]. intros Hin. apply IH.
  destruct (String.eqb (fk_name n) (fk_name P)) eqn:E.
  - apply String.eqb_eq, fk_name_inj in E. subst P. apply col_replace_in_self.
  - apply col_replace_keep; [exact Hin |]. apply String.eqb_neq in E. exact E.
Qed.

Lemma frame_has_fk defs s s' n :
  frame defs s s' -> has_column n (fkcol n) s -> has_column n (fkcol n) s'.
Proof.
  intros Hf (t & Ht & Hin). destruct (frame_find _ _ _ _ _ Hf Ht) as (t' & Ht' & (_ & _ & Hc)).
  exists t'. split; [exact Ht' | eapply fk_steps_keep; eauto].
Qed.

Lemma append_column_Ok n c s s' :
  append_column n c s = (Ok (), s') ->
  exists t, find_table n (tables s) = Some t /\
    s' = {| dicts := dicts s; tables := update_table n (attach_column c) (tables s) |}.
Proof.
  unfold append_column. rewrite run_bind. unfold get_table.
  destruct (find_table n (tables s)) as [t|] eqn:Ht; simpl; [| discriminate].
  destruct (String.eqb _ _); [discriminate |]. rewrite run_bind. simpl.
  destruct (negb _ && _); [discriminate |]. intros H. injection H as <-. eauto.
Qed.

Lemma has_column_attach n c s t :
  find_table n (tables s) = Some t ->
  has_column n c {| dicts := dicts s; tables := update_table n (attach_column c) (tables s) |}.
Proof.
  intros Ht. exists (attach_column c t). simpl.
  rewrite find_table_update_same by reflexivity. rewrite Ht.
  split; [reflexivity | apply col_replace_in_self].
Qed.

(** The loop invariant of table [n]: the frame, and once [b] is set, the
    foreign key of [n] to itself. *)
Lemma column_step_keeps_fk defs (child : nat -> M unit) d s0 (b : bool) name v :
  (forall j s, frame defs s (child j s).2) ->
  str_in (td_name d) (table_names (tables s0)) = false ->
  name <> fk_name (td_name d) ->
  preserves (fun s => loop_frame defs s0 (td_name d) s /\
                      (b = true -> has_column (td_name d) (fkcol (td_name d)) s))
    (match v with
     | CTable j =>
         child j;;
         child_def ← get_def defs j;
         construct_foreign_key (td_name d) (td_name child_def)
     | CType tn =>
         c ← construct_column name tn;
         append_column (td_name d) c
     end).
Proof.
  intros Hchild Hn Hname. destruct v as [tn | j].
  - intros s [Hl Hb]. split; [apply append_ordinary_loop_frame; assumption |].
    intros Hbt. specialize (Hb Hbt). unfold construct_column. rewrite run_bind.
    destruct (str_in tn sqlalchemy_types);
      [simpl | destruct (str_in tn sqlalchemy_other_names); simpl; exact Hb].
    set (c := {| col_name := name; col_type := Some tn;
                 col_primary_key := false; col_foreign_key := None |}).
    destruct (append_column_state (td_name d) c s) as [-> | ->]; [exact Hb |].
    destruct Hb as (t & Ht & Hin). exists (attach_column c t). simpl.
    rewrite find_table_update_same by reflexivity. rewrite Ht.
    split; [reflexivity |]. apply col_replace_keep; [exact Hin |].
    simpl. intros H. apply Hname. rewrite <- H. reflexivity.
  - apply preserves_bind.
    { intros s [(Hf & Hreg & Hpk) Hb]. pose proof (Hchild j s) as Hc.
      split; [split; [eapply frame_trans; eauto | split] |].
      - eapply frame_registered; eauto.
      - eapply frame_pk_ok; eauto.
      - intros Hbt. eapply frame_has_fk; eauto. }
    intros _. apply preserves_bind; [apply preserves_same; apply get_def_same |].
    intros child_def s [(Hf & Hreg & Hpk) Hb].
    pose proof (construct_foreign_key_frame defs (td_name d) (td_name child_def) s Hpk) as Hc.
    split; [split; [eapply frame_trans; eauto | split] |].
    + eapply frame_registered; eauto.
    + eapply frame_pk_ok; eauto.
    + intros Hbt. eapply frame_has_fk; eauto.
Qed.

Lemma construct_columns_keeps_fk defs (child : nat -> M unit) d n0 s0 (b : bool) :
  (forall j s, frame defs s (child j s).2) ->
  str_in (td_name d) (table_names (tables s0)) = false ->
  forall es, Forall (fun e => e.1 <> fk_name (td_name d)) es ->
  preserves (fun s => loop_frame defs s0 (td_name d) s /\
                      (b = true -> has_column (td_name d) (fkcol (td_name d)) s))
    (construct_columns defs child d n0 es).
Proof.
  intros Hchild Hn es Hes. induction Hes as [|[name v] es Hname _ IH]; simpl;
    (apply preserves_bind; [apply preserves_same; apply check_size_same | intros _]).
  - apply preserves_same. reflexivity.
  - apply preserves_bind; [| intros _; exact IH].
    apply column_step_keeps_fk; assumption.
Qed.

Lemma prefix_app_self (a b : string) : String.prefix a (a +:+ b) = true.
Proof.
  induction a as [|x a IH]; [destruct b; reflexivity |].
  change (String.prefix (String x a) (String x (a +:+ b)) = true). simpl.
  destruct (ascii_dec x x) as [_ | C]; [exact IH | contradiction C; reflexivity].
Qed.

Lemma prefix_fk_name P : String.prefix (P +:+ "_") (fk_name P) = true.
Proof.
  unfold fk_name, fkcol. simpl. rewrite <- str_app_assoc. apply prefix_app_self.
Qed.

Lemma construct_columns_selfref defs (child : nat -> M unit) d n0 s0 j dj k :
  (forall j s, frame defs s (child j s).2) ->
  str_in (td_name d) (table_names (tables s0)) = false ->
  defs !! j = Some dj -> td_name dj = td_name d ->
  forall pre post s s',
  Forall (fun e => e.1 <> fk_name (td_name d)) (pre ++ (k, CTable j) :: post) ->
  loop_frame defs s0 (td_name d) s ->
  construct_columns defs child d n0 (pre ++ (k, CTable j) :: post) s = (Ok (), s') ->
  has_column (td_name d) (fkcol (td_name d)) s'.
Proof.
  intros Hchild Hn Hj Hdj pre. induction pre as [|[name v] pre IH]; intros post s s' Hes Hl Hrun;
    simpl in Hrun; apply bind_Ok_inv in Hrun as ([] & sa & Hcs & Hrun);
    pose proof (check_size_same (td_columns d) n0 s) as Hsa; rewrite Hcs in Hsa;
    simpl in Hsa; subst sa; apply bind_Ok_inv in Hrun as ([] & sb & Hstep & Hrun).
  - apply bind_Ok_inv in Hstep as ([] & sc & Hc & Hstep).
    apply bind_Ok_inv in Hstep as (dj' & sd & Hg & Hfk).
    unfold get_def in Hg. rewrite Hj in Hg. injection Hg as <- <-. rewrite Hdj in Hfk.
    destruct Hl as (Hf & Hreg & Hpk). pose proof (Hchild j s) as Hfc. rewrite Hc in Hfc.
    simpl in Hfc.
    assert (Hl : loop_frame defs s0 (td_name d) sc).
    { split; [eapply frame_trans; eauto | split].
      - eapply frame_registered; eauto.
      - eapply frame_pk_ok; eauto. }
    destruct (construct_foreign_key_cases (td_name d) (td_name d) sc (proj2 (proj2 Hl)))
      as [[e He] | He]; rewrite He in Hfk; [discriminate |].
    pose proof (append_column_fk_frame defs (td_name d) (td_name d) sc) as Hfa.
    rewrite Hfk in Hfa. simpl in Hfa.
    apply append_column_Ok in Hfk as (t & Ht & ->).
    assert (Hinv := construct_columns_keeps_fk defs child d n0 s0 true Hchild Hn post
                      (proj2 (Forall_cons_1 _ _ _ Hes))).
    specialize (Hinv _ (conj (conj (frame_trans _ _ _ _ (proj1 Hl) Hfa)
                               (conj (frame_registered _ _ _ _ Hfa (proj1 (proj2 Hl)))
                                     (frame_pk_ok _ _ _ _ Hfa (proj1 (proj2 Hl)) (proj2 (proj2 Hl)))))
                         (fun _ => has_column_attach _ _ _ _ Ht))).
    rewrite Hrun in Hinv. exact (proj2 Hinv eq_refl).
  - simpl in Hes. apply Forall_cons_1 in Hes as [Hname Hes].
    pose proof (column_step_keeps_fk defs child d s0 false name v Hchild Hn Hname s
                  (conj Hl (fun H : false = true => False_ind _ (diff_false_true H)))) as Hs.
    rewrite Hstep in Hs. simpl in Hs.
    eapply IH; [exact Hes | exact (proj1 Hs) | exact Hrun].
Qed.

(** C7, as it holds: when a definition [n] without [primary_key], whose
    name is not yet in the metadata (whose names are distinct), has a
    nested definition of the same name, and no column of its mapping has
    a name beginning with [<n>_] (the prefix of every name a foreign key
    of [n] to itself can have), the build terminates, and if it succeeds
    the metadata has exactly one table [n], which has a column with a
    foreign key to [n.id]. *)
Theorem build_selfref_foreign_key defs i d s cols k j dj :
  defs !! i = Some d -> td_primary_key d = None ->
  ~ In (td_name d) (table_names (tables s)) -> NoDup (table_names (tables s)) ->
  dicts s !! td_columns d = Some cols ->
  In (k, CTable j) cols -> defs !! j = Some dj -> td_name dj = td_name d ->
  Forall (fun e => String.prefix (td_name d +:+ "_") e.1 = false) cols ->
  let r := build defs i s in
  fst r <> Raise OutOfFuel /\
  (fst r = Ok () ->
   count_tables (td_name d) (tables (snd r)) = 1 /\
   exists c, has_column (td_name d) c (snd r) /\
     col_foreign_key c = Some (td_name d, "id")).
Proof.
  intros Hd Hpk Hn Hnd Hc Hin Hj Hdj Hpre r. subst r. split; [apply build_enough_fuel |].
  assert (Hkeys : Forall (fun e => e.1 <> fk_name (td_name d)) cols).
  { eapply Forall_impl; [exact Hpre |]. intros e He E. cbv beta in He.
    rewrite E, prefix_fk_name in He.
    discriminate. }
  destruct (build defs i s) as [o s'] eqn:Hr. simpl. intros Hok. subst o.
  split; [| exists (fkcol (td_name d)); split; [| reflexivity]].
  - apply count_tables_nodup.
    + pose proof (construct_table_nodup defs (S (length defs)) i s Hnd) as H.
      unfold build in Hr. rewrite Hr in H. exact H.
    + eapply construct_table_registered; [exact Hd | exact Hr].
  - assert (Hn' : str_in (td_name d) (table_names (tables s)) = false).
    { apply not_true_iff_false. rewrite str_in_true. exact Hn. }
    assert (Hpk0 : primary_key_of d s = (Ok default_primary_key, s)).
    { unfold primary_key_of. rewrite Hpk. reflexivity. }
    unfold build in Hr.
    rewrite (construct_table_fresh defs _ i d s _ s _ Hd Hn' Hpk0 Hn'
               ltac:(discriminate) Hc) in Hr.
    apply in_split in Hin as (pre & post & ->).
    eapply (construct_columns_selfref defs _ d _ s j dj k
              (fun j s => construct_table_frame defs (length defs) j s) Hn' Hj Hdj
              pre post); [exact Hkeys | | exact Hr].
    split; [| split].
    + split; [apply dicts_ext_refl |]. eexists (tables s), _.
      split; [reflexivity | apply Forall2_tbl_rel_refl].
    + simpl. rewrite find_table_snoc_new by auto. eauto.
    + intros t. simpl. rewrite find_table_snoc_new by auto.
      intros H. injection H as <-. right. reflexivity.
Qed.

Lemma build_selfref_foreign_key_witness :
  let r := build selfref_defs 0 (fresh_state selfref_label_dicts) in
  fst r <> Raise OutOfFuel /\
  (fst r = Ok () ->
   count_tables "t" (tables (snd r)) = 1 /\
   exists c, has_column "t" c (snd r) /\ col_foreign_key c = Some ("t", "id")).
Proof.
  exact (build_selfref_foreign_key selfref_defs 0
           {| td_name := "t"; td_columns := 0; td_primary_key := None |}
           (fresh_state selfref_label_dicts)
           [("parent", CTable 0); ("label", CType "String")] "parent" 0
           {| td_name := "t"; td_columns := 0; td_primary_key := None |}
           eq_refl eq_refl ltac:(simpl; tauto) ltac:(constructor) eq_refl
           ltac:(left; reflexivity) eq_refl eq_refl
           ltac:(repeat constructor)).
Defined.

(** ** The order of the columns of a table *)








Lemma construct_table_Ok_fresh defs f i d s s' :
  defs !! i = Some d ->
  str_in (td_name d) (table_names (tables s)) = false ->
  construct_table defs (S f) i s = (Ok (), s') ->
  exists pk s1 cols,
    primary_key_of d s = (Ok pk, s1) /\
    str_in (td_name d) (table_names (tables s1)) = false /\
    dicts s1 !! td_columns d = Some cols /\
    construct_columns defs (construct_table defs f) d (length cols) cols
      {| dicts := dicts s1; tables := tables s1 ++ [initial_table (td_name d) pk] |} =
      (Ok (), s').
Proof.
  intros Hd Hn. simpl. rewrite run_bind. unfold get_def at 1. rewrite Hd.
  rewrite run_bind. simpl. rewrite Hn. rewrite run_bind.
  destruct (primary_key_of d s) as [[pk|e] s1] eqn:Hpk; [| discriminate].
  rewrite run_bind.
  destruct (new_table_cases (td_name d) pk s1) as [[e ->] | (Hn1 & _ & ->)];
    [discriminate |].
  simpl. rewrite run_bind. unfold get_dict at 1. simpl.
  destruct (dicts s1 !! td_columns d) as [cols|] eqn:Hc; [| discriminate].
  intros Hrun. exists pk, s1, cols. auto.
Qed.

Lemma fresh_loop_frame defs s1 n pk :
  str_in n (table_names (tables s1)) = false ->
  col_primary_key pk = false \/ pk = default_primary_key ->
  loop_frame defs s1 n {| dicts := dicts s1; tables := tables s1 ++ [initial_table n pk] |}.
Proof.
  intros Hn Hpk. split; [| split].
  - split; [apply dicts_ext_refl |]. eexists (tables s1), _.
    split; [reflexivity | apply Forall2_tbl_rel_refl].
  - simpl. rewrite find_table_snoc_new by auto. eauto.
  - intros t. simpl. rewrite find_table_snoc_new by auto.
    intros H. injection H as <-. unfold initial_table. simpl.
    destruct Hpk as [-> | ->]; [left | right]; reflexivity.
Qed.





(** ** Further properties of the code *)

Lemma preserves_get_def_bind {A} defs i P (f : TableDefinition -> M A) :
  (forall d, defs !! i = Some d -> preserves P (f d)) -> preserves P (get_def defs i ≫= f).
Proof.
  intros H s Hs. rewrite run_bind. unfold get_def.
  destruct (defs !! i) as [d|] eqn:E; [apply H; auto | exact Hs].
Qed.

Lemma preserves_bind_Ok {A B} P (m : M A) (f : A -> M B) :
  preserves P m -> (forall s a s1, P s -> m s = (Ok a, s1) -> P (f a s1).2) ->
  preserves P (m ≫= f).
Proof.
  intros Hm Hf s Hs. rewrite run_bind. pose proof (Hm s Hs) as H1.
  destruct (m s) as [[a|e] s1] eqn:E; [exact (Hf s a s1 Hs E) | exact H1].
Qed.

Lemma primary_key_of_tables d s : tables (primary_key_of d s).2 = tables s.
Proof.
  unfold primary_key_of. destruct (td_primary_key d) as [p|]; [| reflexivity].
  rewrite run_bind. unfold get_dict.
  destruct (dicts s !! td_columns d) as [cols|]; [| reflexivity]. simpl.
  rewrite run_bind. destruct (dict_lookup p cols) as [v|]; [| reflexivity]. simpl.
  rewrite run_bind. pose proof (construct_column_value_same p v s) as Hs.
  destruct (construct_column_value p v s) as [[c|e] s1]; simpl in Hs; subst s1;
    reflexivity.
Qed.

(** *** construct_foreign_key *)

(** [construct_foreign_key]: on success, the [many] table holds a column
    named as the code formats it, ['%s_%s' % (one.name, pk)] with [pk]
    rendered by [str] as [<one>.<pk>], that is not a primary key and
    carries a foreign key to [one.<pk>], where [pk] is the first
    primary-key column of [one].  (Its type is the one SQLAlchemy copies
    from the referenced column; the statement says nothing about it.) *)
Theorem construct_foreign_key_appends one many s s' t pk0 rest :
  find_table one (tables s) = Some t -> tbl_primary_key t = pk0 :: rest ->
  construct_foreign_key one many s = (Ok (), s') ->
  exists c, has_column many c s' /\
    col_name c = one +:+ "_" +:+ (one +:+ "." +:+ col_name pk0) /\
    col_primary_key c = false /\
    col_foreign_key c = Some (one, col_name pk0).
Proof.
  intros Ht Hpk. pose proof (find_table_name _ _ _ Ht) as Hname.
  unfold construct_foreign_key, get_table. rewrite run_bind, Ht. simpl. rewrite Hpk.
  rewrite run_bind. destruct (find_table many (tables s)) as [tm|] eqn:Htm; simpl;
    [| discriminate].
  destruct (find _ _) as [target|] eqn:Hf; [| discriminate].
  apply find_some in Hf as [_ Hn]. apply String.eqb_eq in Hn.
  intros Hrun. apply append_column_Ok in Hrun as (tm' & Htm' & ->).
  unfold column_str in *. rewrite Hname, Hn.
  eexists. split; [eapply has_column_attach; exact Htm' |].
  split; [reflexivity | split; reflexivity].
Qed.

Lemma construct_foreign_key_appends_witness :
  let s := snd (build people_defs 0 (fresh_state people_dicts)) in
  exists c, has_column "items" c (snd (construct_foreign_key "people" "items" s)) /\
    col_name c = "people" +:+ "_" +:+ ("people" +:+ "." +:+ "id") /\
    col_primary_key c = false /\ col_foreign_key c = Some ("people", "id").
Proof.
  intros s.
  refine (construct_foreign_key_appends "people" "items" s _ _ default_primary_key [] _ _ _).
  - vm_compute. reflexivity.
  - vm_compute. reflexivity.
  - vm_compute. reflexivity.
Defined.

(** A table with an explicit primary key gets an empty primary-key
    constraint, so a nested table in its [columns] makes the build fail:
    [construct_foreign_key] calls [next] on the empty iterator of the
    parent's primary-key columns and raises [StopIteration]. Shown for
    the case where the first entry after the primary key is a nested
    definition whose table is already present (or is the table itself),
    so that the recursive call returns at once. *)
Theorem build_explicit_primary_key_nested defs i d s p tn cols0 name j dj rest :
  defs !! i = Some d -> ~ In (td_name d) (table_names (tables s)) ->
  td_primary_key d = Some p -> p <> "" ->
  dicts s !! td_columns d = Some cols0 -> dict_lookup p cols0 = Some (CType tn) ->
  In tn sqlalchemy_types ->
  dict_delete p cols0 = (name, CTable j) :: rest ->
  defs !! j = Some dj ->
  td_name dj = td_name d \/ In (td_name dj) (table_names (tables s)) ->
  fst (build defs i s) = Raise StopIteration.
Proof.
  intros Hd Hn Hp Hpn Hc Hl Htn Hdel Hdj Hj.
  assert (Hn' : str_in (td_name d) (table_names (tables s)) = false).
  { apply not_true_iff_false. rewrite str_in_true. exact Hn. }
  set (pk := {| col_name := p; col_type := Some tn; col_primary_key := false;
                col_foreign_key := None |}).
  set (s1 := (del_dict_key (td_columns d) p s).2).
  assert (Hpk : primary_key_of d s = (Ok pk, s1)).
  { unfold primary_key_of. rewrite Hp, run_bind. unfold get_dict. rewrite Hc. simpl.
    rewrite run_bind, Hl. simpl. rewrite run_bind. unfold construct_column.
    replace (str_in tn sqlalchemy_types) with true by (symmetry; apply str_in_true; exact Htn).
    reflexivity. }
  assert (Hc1 : dicts s1 !! td_columns d = Some ((name, CTable j) :: rest)).
  { unfold s1. simpl. rewrite list_lookup_insert_eq by (eapply lookup_lt_Some; exact Hc).
    rewrite Hc. simpl. rewrite Hdel. reflexivity. }
  assert (Hlen : exists f, length defs = S f).
  { destruct (length defs) as [|f] eqn:E; [| eauto].
    apply lookup_lt_Some in Hd. lia. }
  destruct Hlen as [f Hlen]. unfold build. rewrite Hlen.
  rewrite (construct_table_fresh defs (S f) i d s pk s1 _ Hd Hn' Hpk Hn' Hpn Hc1).
  set (s2 := {| dicts := dicts s1; tables := tables s1 ++ [initial_table (td_name d) pk] |}).
  assert (Hc2 : dicts s2 !! td_columns d = Some ((name, CTable j) :: rest)) by exact Hc1.
  assert (Ht2 : find_table (td_name d) (tables s2) = Some (initial_table (td_name d) pk))
    by (apply find_table_snoc_new; [exact Hn' | reflexivity]).
  assert (Hj2 : str_in (td_name dj) (table_names (tables s2)) = true).
  { apply str_in_true. unfold table_names. simpl. rewrite map_app. apply in_or_app.
    destruct Hj as [-> | Hj]; [right; left; reflexivity | left; exact Hj]. }
  simpl construct_columns. rewrite run_bind.
  rewrite (check_size_ok _ (S (length rest)) s2 _ Hc2 eq_refl).
  rewrite run_bind, run_bind, run_bind. unfold get_def at 1. rewrite Hdj.
  rewrite (run_bind (gets _)). simpl. simpl in Hj2. rewrite Hj2. simpl.
  rewrite run_bind. unfold get_def. rewrite Hdj.
  unfold construct_foreign_key, get_table. rewrite run_bind, Ht2. reflexivity.
Qed.

Lemma build_explicit_primary_key_nested_witness :
  fst (build [{| td_name := "t"; td_columns := 0; td_primary_key := Some "code" |}]
             0 (fresh_state [[("code", CType "Integer"); ("self", CTable 0)]])) =
  Raise StopIteration.
Proof.
  apply (build_explicit_primary_key_nested _ 0
           {| td_name := "t"; td_columns := 0; td_primary_key := Some "code" |}
           (fresh_state [[("code", CType "Integer"); ("self", CTable 0)]])
           "code" "Integer" [("code", CType "Integer"); ("self", CTable 0)]
           "self" 0 {| td_name := "t"; td_columns := 0; td_primary_key := Some "code" |} []).
  - reflexivity.
  - simpl. tauto.
  - reflexivity.
  - discriminate.
  - reflexivity.
  - reflexivity.
  - simpl. tauto.
  - reflexivity.
  - reflexivity.
  - left. reflexivity.
Defined.

(** *** construct_table: the primary-key step *)

(** An explicit [primary_key] that is not a key of the [columns] mapping
    makes [construct_table] raise [KeyError(primary_key)] before anything
    is registered or deleted. *)
Theorem construct_table_missing_primary_key defs f i d s p cols :
  defs !! i = Some d -> ~ In (td_name d) (table_names (tables s)) ->
  td_primary_key d = Some p -> dicts s !! td_columns d = Some cols ->
  dict_lookup p cols = None ->
  construct_table defs (S f) i s = (Raise (KeyError p), s).
Proof.
  intros Hd Hn Hp Hc Hl. simpl. rewrite run_bind. unfold get_def at 1. rewrite Hd.
  rewrite run_bind. simpl.
  replace (str_in (td_name d) (table_names (tables s))) with false
    by (symmetry; apply not_true_iff_false; rewrite str_in_true; exact Hn).
  rewrite run_bind. unfold primary_key_of. rewrite Hp, run_bind. unfold get_dict at 1.
  rewrite Hc. simpl. rewrite run_bind, Hl. reflexivity.
Qed.

Lemma construct_table_missing_primary_key_witness :
  construct_table pk_defs 1 0 (fresh_state nopk_dicts) = (Raise (KeyError "code"), fresh_state nopk_dicts).
Proof.
  apply (construct_table_missing_primary_key pk_defs 0 0
           {| td_name := "t"; td_columns := 0; td_primary_key := Some "code" |}
           (fresh_state nopk_dicts) "code" [("label", CType "String")]).
  - reflexivity.
  - simpl. tauto.
  - reflexivity.
  - reflexivity.
  - vm_compute. reflexivity.
Defined.

(** An explicit primary key whose type name is not a key of
    [types.__dict__] makes [construct_table] raise the unknown-type
    [KeyError]; the entry is not deleted from the mapping and no table is
    registered. *)
Theorem construct_table_unknown_primary_key_type defs f i d s p cols tn :
  defs !! i = Some d -> ~ In (td_name d) (table_names (tables s)) ->
  td_primary_key d = Some p -> dicts s !! td_columns d = Some cols ->
  dict_lookup p cols = Some (CType tn) -> ~ In tn types_dict_names ->
  construct_table defs (S f) i s = (Raise (KeyError (unknown_type_msg tn p)), s).
Proof.
  intros Hd Hn Hp Hc Hl Htn. simpl. rewrite run_bind. unfold get_def at 1. rewrite Hd.
  rewrite run_bind. simpl.
  replace (str_in (td_name d) (table_names (tables s))) with false
    by (symmetry; apply not_true_iff_false; rewrite str_in_true; exact Hn).
  rewrite run_bind. unfold primary_key_of. rewrite Hp, run_bind. unfold get_dict at 1.
  rewrite Hc. simpl. rewrite run_bind, Hl. simpl. rewrite run_bind.
  unfold construct_column.
  assert (Htn' : str_in tn types_dict_names = false)
    by (apply not_true_iff_false; rewrite str_in_true; exact Htn).
  unfold types_dict_names in Htn'. rewrite str_in_app in Htn'.
  apply orb_false_iff in Htn' as [-> ->]. reflexivity.
Qed.

Lemma construct_table_unknown_primary_key_type_witness :
  construct_table pk_defs 1 0 (fresh_state badpk_dicts) =
  (Raise (KeyError (unknown_type_msg "Bogus" "code")), fresh_state badpk_dicts).
Proof.
  apply (construct_table_unknown_primary_key_type pk_defs 0 0
           {| td_name := "t"; td_columns := 0; td_primary_key := Some "code" |}
           (fresh_state badpk_dicts) "code"
           [("code", CType "Bogus"); ("label", CType "String")] "Bogus").
  - reflexivity.
  - simpl. tauto.
  - reflexivity.
  - reflexivity.
  - vm_compute. reflexivity.
  - vm_compute. intuition discriminate.
Defined.

(** After a successful call that registers a definition with an explicit
    [primary_key] [p], its [columns] mapping has no entry [p] left. *)
Theorem construct_table_deletes_primary_key defs f i d s p s' :
  defs !! i = Some d -> ~ In (td_name d) (table_names (tables s)) ->
  td_primary_key d = Some p ->
  construct_table defs (S f) i s = (Ok (), s') ->
  exists D, dicts s' !! td_columns d = Some D /\ ~ In p (map fst D).
Proof.
  intros Hd Hn Hp Hrun.
  assert (Hn' : str_in (td_name d) (table_names (tables s)) = false).
  { apply not_true_iff_false. rewrite str_in_true. exact Hn. }
  destruct (construct_table_Ok_fresh defs f i d s s' Hd Hn' Hrun)
    as (pk & s1 & cols & Hpk & Hn1 & Hc & Hloop).
  apply primary_key_of_Ok in Hpk as [_ Hpk]. rewrite Hp in Hpk.
  destruct Hpk as (_ & Hflag & cols0 & v & Hc0 & _ & _ & Hs1).
  assert (Hc1 : dicts s1 !! td_columns d = Some (dict_delete p cols0)).
  { rewrite Hs1. simpl. rewrite list_lookup_insert_eq by (eapply lookup_lt_Some; exact Hc0).
    rewrite Hc0. reflexivity. }
  pose proof (construct_columns_frame defs (construct_table defs f) d (length cols) s1
                (fun j s => construct_table_frame defs f j s) Hn1 cols
                _ (fresh_loop_frame defs s1 (td_name d) pk Hn1 (or_introl Hflag))) as Hl.
  rewrite Hloop in Hl. destruct Hl as ([[_ HD] _] & _).
  destruct (HD _ _ Hc1) as (K & _ & HK). eexists. split; [exact HK |].
  intros Hin. apply in_map_iff in Hin as ([k v'] & Hk & Hin). simpl in Hk. subst k.
  apply filter_In in Hin as [Hin _]. unfold dict_delete in Hin.
  apply filter_In in Hin as [_ Hne]. simpl in Hne. rewrite String.eqb_refl in Hne.
  discriminate.
Qed.

Lemma construct_table_deletes_primary_key_witness :
  exists D, dicts (snd (build pk_defs 0 (fresh_state pk_dicts))) !! 0 = Some D /\
            ~ In "code" (map fst D).
Proof.
  refine (construct_table_deletes_primary_key pk_defs (length pk_defs) 0
            {| td_name := "t"; td_columns := 0; td_primary_key := Some "code" |}
            (fresh_state pk_dicts) "code" _ eq_refl _ eq_refl _).
  - simpl. tauto.
  - vm_compute. reflexivity.
Defined.

(** *** Invariants of a whole build *)

Lemma construct_columns_names_closed defs (child : nat -> M unit) d n0 P :
  names_closed P -> (forall j, preserves P (child j)) ->
  forall es, preserves P (construct_columns defs child d n0 es).
Proof.
  intros HP Hchild es. induction es as [|[name v] es IH]; simpl;
    (apply preserves_bind; [apply preserves_same; apply check_size_same | intros _]).
  - apply preserves_same. reflexivity.
  - apply preserves_bind; [| intros _; exact IH].
    destruct v as [tn | j].
    + apply preserves_bind; [apply preserves_same; apply construct_column_same |].
      intros c s Hs. apply (HP s); [symmetry; apply append_column_names | exact Hs].
    + apply preserves_bind; [apply Hchild | intros _].
      apply preserves_bind; [apply preserves_same; apply get_def_same |].
      intros c s Hs. apply (HP s); [symmetry; apply construct_foreign_key_names | exact Hs].
Qed.

Lemma names_from_defs_closed defs s0 : names_closed (names_from_defs defs s0).
Proof. intros s s' E H x Hx. apply H. rewrite E. exact Hx. Qed.

Lemma names_prefix_closed s0 : names_closed (names_prefix s0).
Proof. intros s s' E [l H]. exists l. rewrite <- E. exact H. Qed.

Lemma construct_table_names_from defs fuel i s0 :
  preserves (names_from_defs defs s0) (construct_table defs fuel i).
Proof.
  revert i. induction fuel as [|f IH]; intros i; simpl; [apply preserves_same; reflexivity |].
  apply preserves_get_def_bind. intros d Hd.
  apply preserves_bind; [apply preserves_same; reflexivity | intros ns].
  destruct (str_in _ _); [apply preserves_same; reflexivity |].
  apply preserves_bind.
  { intros s Hs. apply (names_from_defs_closed defs s0 s); [symmetry; apply primary_key_of_names | exact Hs]. }
  intros pk. apply preserves_bind.
  { intros s Hs. destruct (new_table_cases (td_name d) pk s) as [[e ->] | (_ & _ & ->)]; [exact Hs |].
    intros x Hx. unfold table_names in Hx. simpl in Hx. rewrite map_app in Hx.
    apply in_app_or in Hx as [Hx | [<- | []]]; [apply Hs; exact Hx |].
    right. exists i, d. auto. }
  intros _. apply preserves_bind; [apply preserves_same; apply get_dict_same | intros cols].
  apply construct_columns_names_closed; [apply names_from_defs_closed | exact IH].
Qed.

Lemma frame_names_prefix defs s s' : frame defs s s' -> names_prefix s s'.
Proof.
  intros [_ (ts2 & extra & E & HF)]. exists (table_names extra).
  rewrite E, <- (table_names_Forall2 _ _ HF). apply map_app.
Qed.

Lemma construct_table_names_prefix defs fuel i s0 :
  preserves (names_prefix s0) (construct_table defs fuel i).
Proof.
  intros s [l Hl]. destruct (frame_names_prefix defs _ _ (construct_table_frame defs fuel i s))
    as [l' Hl']. exists (l ++ l'). rewrite Hl', Hl, app_assoc. reflexivity.
Qed.

Lemma update_table_Forall (P : Table -> Prop) n f ts :
  (forall t, P t -> P (f t)) -> Forall P ts -> Forall P (update_table n f ts).
Proof.
  intros Hf H. unfold update_table. apply Forall_map. eapply Forall_impl; [exact H |].
  intros t Ht. simpl. destruct (String.eqb _ _); auto.
Qed.

Lemma append_column_pk_shapes defs n c :
  col_primary_key c = false -> preserves (pk_shapes defs) (append_column n c).
Proof.
  intros Hc s Hs. destruct (append_column_state n c s) as [-> | ->]; [exact Hs |].
  apply update_table_Forall; [| exact Hs].
  intros t Ht. unfold pk_registered, attach_column. simpl. rewrite Hc. exact Ht.
Qed.

Lemma construct_foreign_key_pk_shapes defs one many :
  preserves (pk_shapes defs) (construct_foreign_key one many).
Proof.
  intros s Hs. unfold construct_foreign_key, get_table. rewrite run_bind.
  destruct (find_table one (tables s)) as [t|]; simpl; [| exact Hs].
  destruct (tbl_primary_key t) as [|pk0 rest]; [exact Hs |].
  rewrite run_bind. destruct (find_table many (tables s)); simpl; [| exact Hs].
  destruct (find _ _); [| exact Hs]. apply append_column_pk_shapes; [reflexivity | exact Hs].
Qed.

Lemma construct_column_flag name tn s c s1 :
  construct_column name tn s = (Ok c, s1) -> col_primary_key c = false.
Proof.
  unfold construct_column. destruct (str_in _ sqlalchemy_types); [| destruct (str_in _ sqlalchemy_other_names); discriminate].
  intros H. injection H as <- _. reflexivity.
Qed.

Lemma construct_columns_pk_shapes defs (child : nat -> M unit) d n0 :
  (forall j, preserves (pk_shapes defs) (child j)) ->
  forall es, preserves (pk_shapes defs) (construct_columns defs child d n0 es).
Proof.
  intros Hchild es. induction es as [|[name v] es IH]; simpl;
    (apply preserves_bind; [apply preserves_same; apply check_size_same | intros _]).
  - apply preserves_same. reflexivity.
  - apply preserves_bind; [| intros _; exact IH].
    destruct v as [tn | j].
    + apply preserves_bind_Ok; [apply preserves_same; apply construct_column_same |].
      intros s c s1 Hs Hc. pose proof (construct_column_same name tn s) as E.
      rewrite Hc in E. simpl in E. subst s1.
      apply append_column_pk_shapes; [exact (construct_column_flag _ _ _ _ _ Hc) | exact Hs].
    + apply preserves_bind; [apply Hchild | intros _].
      apply preserves_bind; [apply preserves_same; apply get_def_same |].
      intros c. apply construct_foreign_key_pk_shapes.
Qed.

Lemma construct_table_pk_shapes defs fuel i :
  preserves (pk_shapes defs) (construct_table defs fuel i).
Proof.
  revert i. induction fuel as [|f IH]; intros i; simpl; [apply preserves_same; reflexivity |].
  apply preserves_get_def_bind. intros d Hd.
  apply preserves_bind; [apply preserves_same; reflexivity | intros ns].
  destruct (str_in _ _); [apply preserves_same; reflexivity |].
  apply preserves_bind_Ok.
  { intros s Hs. unfold pk_shapes. rewrite primary_key_of_tables. exact Hs. }
  intros s pk s1 Hs Hpk. apply primary_key_of_Ok in Hpk as [Ht Hpk].
  assert (Hinit : tbl_primary_key (initial_table (td_name d) pk) = pk_constraint_of d).
  { unfold initial_table, pk_constraint_of. simpl. destruct (td_primary_key d) as [p|].
    - destruct Hpk as (_ & -> & _). reflexivity.
    - destruct Hpk as [-> _]. reflexivity. }
  assert (Hs1 : pk_shapes defs s1) by (unfold pk_shapes; rewrite Ht; exact Hs).
  refine (preserves_bind _ _ _ _ _ s1 Hs1).
  { intros s2 Hs2. destruct (new_table_cases (td_name d) pk s2) as [[e ->] | (_ & _ & ->)];
      [exact Hs2 |].
    apply Forall_app. split; [exact Hs2 |]. constructor; [| constructor].
    exists i, d. split; [exact Hd | split; [reflexivity | exact Hinit]]. }
  intros _. apply preserves_bind; [apply preserves_same; apply get_dict_same | intros cols].
  apply construct_columns_pk_shapes. exact IH.
Qed.

(** [generate_metadata] terminates on every document: the recursion of
    [construct_table] returns at once on a table already in the
    metadata, so cyclic and self-referential definitions do not recurse
    forever, and the result is never the exhaustion of the bound on the
    depth of the recursion. *)
Theorem generate_metadata_terminates defs ds doc :
  generate_metadata defs ds doc <> Raise OutOfFuel.
Proof.
  destruct doc as [i | items | sc]; simpl; try discriminate.
  pose proof (build_enough_fuel defs i {| dicts := ds; tables := [] |}) as H.
  destruct (build defs i _) as [[u|e] s']; simpl in *; [discriminate | congruence].
Qed.

(** On success, [generate_metadata] returns distinct table names, each
    the name of one of the document's definitions, so there are at most
    as many tables as definitions. *)
Theorem generate_metadata_tables_distinct defs ds doc ts :
  generate_metadata defs ds doc = Ok ts ->
  NoDup (table_names ts) /\
  (forall x, In x (table_names ts) -> exists j d, defs !! j = Some d /\ td_name d = x) /\
  length ts <= length defs.
Proof.
  destruct doc as [i | items | sc]; simpl; try discriminate.
  set (s0 := {| dicts := ds; tables := [] |}).
  pose proof (construct_table_nodup defs (S (length defs)) i s0 (NoDup_nil_2)) as Hnd.
  assert (Hfrom : names_from_defs defs s0 (build defs i s0).2).
  { apply construct_table_names_from. intros x []. }
  unfold build in *.
  destruct (construct_table defs (S (length defs)) i s0) as [[u|e] s'] eqn:Hb;
    [| discriminate].
  intros H. injection H as <-. simpl in Hnd, Hfrom.
  assert (Hfrom' : forall x, In x (table_names (tables s')) ->
                   exists j d, defs !! j = Some d /\ td_name d = x).
  { intros x Hx. destruct (Hfrom x Hx) as [[] | Hx']. exact Hx'. }
  split; [exact Hnd | split; [exact Hfrom' |]].
  rewrite <- (length_map tbl_name (tables s')), <- (length_map td_name defs).
  apply NoDup_incl_length; [apply NoDup_ListNoDup; exact Hnd |].
  intros x Hx. destruct (Hfrom' x Hx) as (j & d & Hd & <-).
  apply in_map. apply list_elem_of_In. eapply list_elem_of_lookup_2. exact Hd.
Qed.

Lemma generate_metadata_tables_distinct_witness :
  let ts := tables (snd (build people_defs 0 (fresh_state people_dicts))) in
  NoDup (table_names ts) /\
  (forall x, In x (table_names ts) -> exists j d, people_defs !! j = Some d /\ td_name d = x) /\
  length ts <= length people_defs.
Proof.
  intros ts. apply (generate_metadata_tables_distinct people_defs people_dicts (YTable 0) ts).
  vm_compute. reflexivity.
Defined.

(** On success, every table returned by [generate_metadata] bears the
    name of a definition of the document whose primary-key constraint it
    has: empty when that definition has an explicit [primary_key],
    exactly the default [id] column when it has none. *)
Theorem generate_metadata_primary_keys defs ds doc ts :
  generate_metadata defs ds doc = Ok ts ->
  Forall (fun t => exists j d, defs !! j = Some d /\ td_name d = tbl_name t /\
            tbl_primary_key t = match td_primary_key d with
                                | Some _ => []
                                | None => [default_primary_key]
                                end) ts.
Proof.
  destruct doc as [i | items | sc]; simpl; try discriminate.
  set (s0 := {| dicts := ds; tables := [] |}).
  assert (H : pk_shapes defs (build defs i s0).2)
    by (apply construct_table_pk_shapes; constructor).
  destruct (build defs i s0) as [[u|e] s']; [| discriminate].
  intros E. injection E as <-. exact H.
Qed.

Lemma generate_metadata_primary_keys_witness :
  Forall (fun t => exists j d, pk_defs !! j = Some d /\ td_name d = tbl_name t /\
            tbl_primary_key t = match td_primary_key d with
                                | Some _ => []
                                | None => [default_primary_key]
                                end)
    (tables (snd (build pk_defs 0 (fresh_state pk_dicts)))).
Proof.
  apply (generate_metadata_primary_keys pk_defs pk_dicts (YTable 0)).
  vm_compute. reflexivity.
Defined.

(** On success, the first table returned by [generate_metadata] is the
    table of the root definition: nested tables are registered after
    it. *)
Theorem generate_metadata_root_first defs ds i ts :
  generate_metadata defs ds (YTable i) = Ok ts ->
  exists d t rest, defs !! i = Some d /\ ts = t :: rest /\ tbl_name t = td_name d.
Proof.
  simpl. set (s0 := {| dicts := ds; tables := [] |}). unfold build.
  destruct (construct_table defs (S (length defs)) i s0) as [[u|e] s'] eqn:Hb;
    [| discriminate].
  intros H. injection H as <-. destruct u.
  destruct (defs !! i) as [d|] eqn:Hd.
  2: { simpl in Hb. rewrite run_bind in Hb. unfold get_def in Hb. rewrite Hd in Hb.
       discriminate. }
  destruct (construct_table_Ok_fresh defs (length defs) i d s0 s' Hd eq_refl Hb)
    as (pk & s1 & cols & Hpk & _ & _ & Hloop).
  apply primary_key_of_Ok in Hpk as [Ht _].
  set (s2 := {| dicts := dicts s1; tables := tables s1 ++ [initial_table (td_name d) pk] |}).
  pose proof (construct_columns_names_closed defs (construct_table defs (length defs)) d
                (length cols) (names_prefix s2) (names_prefix_closed s2)
                (fun j => construct_table_names_prefix defs (length defs) j s2) cols s2
                (ex_intro _ [] (eq_sym (app_nil_r _)))) as [l Hl].
  unfold s2 in Hl. rewrite Hloop in Hl. simpl in Hl. rewrite Ht in Hl. simpl in Hl.
  destruct (tables s') as [|t rest]; [discriminate |].
  injection Hl as Hn _. exists d, t, rest. auto.
Qed.

Lemma generate_metadata_root_first_witness :
  exists d t rest, people_defs !! 0 = Some d /\
    tables (snd (build people_defs 0 (fresh_state people_dicts))) = t :: rest /\
    tbl_name t = td_name d.
Proof.
  apply (generate_metadata_root_first people_defs people_dicts 0).
  vm_compute. reflexivity.
Defined.

(** A root definition without [primary_key] whose [columns] mapping is
    empty gives a metadata with one table, holding only the default
    [id] column, which is its primary key. *)
Theorem generate_metadata_empty_columns defs ds i d :
  defs !! i = Some d -> td_primary_key d = None -> ds !! td_columns d = Some [] ->
  generate_metadata defs ds (YTable i) =
  Ok [{| tbl_name := td_name d; tbl_columns := [default_primary_key];
         tbl_primary_key := [default_primary_key] |}].
Proof.
  intros Hd Hp Hc. simpl. unfold build. simpl.
  rewrite run_bind. unfold get_def at 1. rewrite Hd. simpl.
  rewrite run_bind. simpl. unfold primary_key_of. rewrite Hp.
  rewrite run_bind. simpl. rewrite run_bind. unfold new_table. rewrite run_bind. simpl.
  rewrite run_bind. simpl. unfold get_dict at 1. simpl. rewrite Hc. simpl.
  rewrite run_bind. unfold check_size. rewrite run_bind. unfold get_dict. simpl.
  rewrite Hc. reflexivity.
Qed.

Lemma generate_metadata_empty_columns_witness :
  generate_metadata [{| td_name := "t"; td_columns := 0; td_primary_key := None |}] [[]]
    (YTable 0) =
  Ok [{| tbl_name := "t"; tbl_columns := [default_primary_key];
         tbl_primary_key := [default_primary_key] |}].
Proof.
  apply (generate_metadata_empty_columns _ [[]] 0
           {| td_name := "t"; td_columns := 0; td_primary_key := None |});
    reflexivity.
Defined.
